(** * WS2812B driver (WS2812B.py): encoding, buffer construction and shifting

    A shallow embedding of the MicroPython driver [WS2812B.py] and the
    properties of its colour encoder ([convert_step]), its buffer builder
    ([convert_seq], reached through [set_seq]), its shift operation
    ([shift_buffer]) and its output operation ([output_buffer]).

    Python integers are unbounded, so they are modelled by [Z]; the bit
    operations of the source ([&], [<<]) are [Z.land] and [Z.shiftl].
    The methods of class [chain] mutate the attributes of [self], print to
    the console, drive the RMT peripheral and may raise; they are modelled
    in a state-and-exception monad over the object and an event trace, in
    which the state reached when an exception is raised stays observable,
    as it is in Python. *)

From Stdlib Require Import ZArith List String Ascii Bool Lia.
Import ListNotations.
Open Scope Z_scope.

(* ================================================================== *)
(** * The fragment of Python the driver uses *)
(* ================================================================== *)

Module Py.

#[local] Set Warnings "-register-all".

(** Values that a caller can hand to [set_seq]: integers, strings, [None],
    tuples and lists, nested at will.  Booleans, floats, bytes, dicts,
    ranges and objects of user classes are left out, and strings are
    strings of one-byte characters: what is proved of all [pyval] is proved
    of these five kinds of values. *)
Inductive pyval : Type :=
| PNone
| PInt (z : Z)
| PStr (s : string)
| PTuple (items : list pyval)
| PList (items : list pyval).

(** The built-in exceptions that the operations below raise. *)
Inductive exn : Type :=
| ZeroDivisionError
| IndexError
| TypeError.

Inductive result (A : Type) : Type :=
| Ok (a : A)
| Raise (e : exn).
Arguments Ok {A} a.
Arguments Raise {A} e.

Definition raised {A} (r : result A) : bool :=
  match r with Ok _ => false | Raise _ => true end.

Definition rbind {A B} (c : result A) (k : A -> result B) : result B :=
  match c with
  | Ok a => k a
  | Raise e => Raise e
  end.

(** [isinstance(v, list)] *)
Definition isinstance_list (v : pyval) : bool :=
  match v with PList _ => true | _ => false end.

(** [len(v)] *)
Definition len (v : pyval) : result Z :=
  match v with
  | PList l | PTuple l => Ok (Z.of_nat (List.length l))
  | PStr s => Ok (Z.of_nat (String.length s))
  | PNone | PInt _ => Raise TypeError
  end.

(** Indexing a sequence of length [n] at [i]: a negative index counts from
    the end, an index outside the sequence raises [IndexError]. *)
Definition index {A} (l : list A) (i : Z) : result A :=
  let n := Z.of_nat (List.length l) in
  let k := if i <? 0 then i + n else i in
  if (k <? 0) || (n <=? k) then Raise IndexError
  else match nth_error l (Z.to_nat k) with
       | Some x => Ok x
       | None => Raise IndexError
       end.

(** [v[i]] *)
Definition getitem (v : pyval) (i : Z) : result pyval :=
  match v with
  | PList l | PTuple l => index l i
  | PStr s =>
      rbind (index (list_ascii_of_string s) i)
            (fun c => Ok (PStr (String c EmptyString)))
  | PNone | PInt _ => Raise TypeError
  end.

(** [a & b] *)
Definition and_ (a b : pyval) : result pyval :=
  match a, b with
  | PInt x, PInt y => Ok (PInt (Z.land x y))
  | _, _ => Raise TypeError
  end.

(** [v != z] for an integer literal [z] *)
Definition ne_int (v : pyval) (z : Z) : bool :=
  match v with
  | PInt x => negb (x =? z)
  | _ => true
  end.

(** [a % b] on integers: the sign of the result follows the divisor, as
    [Z.modulo] does; a zero divisor raises. *)
Definition mod_ (a b : Z) : result Z :=
  if b =? 0 then Raise ZeroDivisionError else Ok (a mod b).

(** [range(start, stop, step)] for a non-zero [step]. *)
Definition range (start stop step : Z) : list Z :=
  let count :=
    if 0 <? step then (stop - start + step - 1) / step
    else (start - stop - step - 1) / (- step) in
  map (fun k => start + Z.of_nat k * step) (seq 0 (Z.to_nat count)).

End Py.
Import Py.

Declare Scope result_scope.
Delimit Scope result_scope with result.
Notation "x <- c ;; k" := (rbind c (fun x => k))
  (at level 61, c at next level, right associativity) : result_scope.

(** A [for] loop over [xs] whose body updates the local variable [acc]
    and may raise. *)
Fixpoint for_in {X A} (xs : list X) (acc : A) (body : X -> A -> result A)
  : result A :=
  match xs with
  | [] => Ok acc
  | x :: xs' => rbind (body x acc) (fun acc' => for_in xs' acc' body)
  end.

(* ================================================================== *)
(** * Module-level constants *)
(* ================================================================== *)

Definition T0H : Z := 4.
Definition T0L : Z := 9.
Definition T1H : Z := 8.
Definition T1L : Z := 5.
Definition TRST : Z := 5000.

(** Timings for transmitting binary 0 and binary 1. *)
Definition T0 : list Z := [T0H; T0L].
Definition T1 : list Z := [T1H; T1L].

(* ================================================================== *)
(** * The object, the outside world and the method monad *)
(* ================================================================== *)

Inductive level : Type := LOW | HIGH.

(** What a method does to the outside: console output and calls to the
    RMT peripheral. *)
Inductive event : Type :=
| Print (s : string)
| RMT_new (channel : Z) (gpio : string) (tx_idle_level : Z)
| RMT_pulses_send (data : list Z) (start_level : level)
| RMT_deinit.

(** The attributes of a [chain] object.  [self.rmt] is a handle on the
    peripheral; its creation and use appear as events.  [led_count] is the
    integer given to the constructor.  [seq_buffer] is the list object the
    caller passed to [set_seq]; the driver only reads it. *)
Record chain : Type := mkChain {
  led_count : Z;
  gpio_pin : string;
  timing_buffer : option (list Z);
  seq_buffer : pyval;
  seq_buffer_len : Z;
  shift_pos : Z
}.

Record world : Type := mkWorld {
  self : chain;
  trace : list event
}.

Definition M (A : Type) : Type := world -> result A * world.

Definition ret {A} (a : A) : M A := fun w => (Ok a, w).

Definition bind {A B} (c : M A) (k : A -> M B) : M B :=
  fun w =>
    match c w with
    | (Ok a, w') => k a w'
    | (Raise e, w') => (Raise e, w')
    end.

Definition lift {A} (r : result A) : M A := fun w => (r, w).

Definition get {A} (attr : chain -> A) : M A := fun w => (Ok (attr (self w)), w).

Definition modify (f : chain -> chain) : M unit :=
  fun w => (Ok tt, mkWorld (f (self w)) (trace w)).

Definition emit (e : event) : M unit :=
  fun w => (Ok tt, mkWorld (self w) (trace w ++ [e])).

Definition print (s : string) : M unit := emit (Print s).

Declare Scope method_scope.
Delimit Scope method_scope with method.
Notation "x <- c ;; k" := (bind c (fun x => k))
  (at level 61, c at next level, right associativity) : method_scope.
Notation "c ;; k" := (bind c (fun _ => k))
  (at level 61, right associativity) : method_scope.

(** Attribute assignment, [self.attr = v]. *)
Definition with_timing_buffer (v : option (list Z)) (c : chain) : chain :=
  mkChain (led_count c) (gpio_pin c) v
          (seq_buffer c) (seq_buffer_len c) (shift_pos c).
Definition with_seq_buffer (v : pyval) (c : chain) : chain :=
  mkChain (led_count c) (gpio_pin c) (timing_buffer c)
          v (seq_buffer_len c) (shift_pos c).
Definition with_seq_buffer_len (v : Z) (c : chain) : chain :=
  mkChain (led_count c) (gpio_pin c) (timing_buffer c)
          (seq_buffer c) v (shift_pos c).
Definition with_shift_pos (v : Z) (c : chain) : chain :=
  mkChain (led_count c) (gpio_pin c) (timing_buffer c)
          (seq_buffer c) (seq_buffer_len c) v.

Definition set_timing_buffer (v : option (list Z)) : M unit :=
  modify (with_timing_buffer v).
Definition set_seq_buffer (v : pyval) : M unit :=
  modify (with_seq_buffer v).
Definition set_seq_buffer_len (v : Z) : M unit :=
  modify (with_seq_buffer_len v).
Definition set_shift_pos (v : Z) : M unit :=
  modify (with_shift_pos v).

(** A [for] loop whose body is a method body. *)
Fixpoint for_inM {X A} (xs : list X) (acc : A) (body : X -> A -> M A) : M A :=
  match xs with
  | [] => ret acc
  | x :: xs' => bind (body x acc) (fun acc' => for_inM xs' acc' body)
  end.

(* ================================================================== *)
(** * class chain *)
(* ================================================================== *)

(** [chain.__init__(led_count, gpio_pin)] *)
Definition chain_init (led_count : Z) (gpio_pin : string) : world :=
  mkWorld (mkChain led_count gpio_pin None PNone 0 0)
          [RMT_new 3 gpio_pin 0].

(** [chain.convert_step(led)]: convert one LED of the sequence from RGB to
    High/Low timing.  Three loops over [range(7, -1, -1)], for green
    ([led[1]]), red ([led[0]]) and blue ([led[2]]). *)
Definition convert_step (led : pyval) : result (list Z) :=
  (let timing := [] in
   timing <- for_in (range 7 (-1) (-1)) timing (fun j timing =>
     x <- getitem led 1 ;;
     m <- and_ x (PInt (Z.shiftl 1 j)) ;;
     if ne_int m 0 then Ok (timing ++ T1) else Ok (timing ++ T0)) ;;
   timing <- for_in (range 7 (-1) (-1)) timing (fun j timing =>
     x <- getitem led 0 ;;
     m <- and_ x (PInt (Z.shiftl 1 j)) ;;
     if ne_int m 0 then Ok (timing ++ T1) else Ok (timing ++ T0)) ;;
   timing <- for_in (range 7 (-1) (-1)) timing (fun j timing =>
     x <- getitem led 2 ;;
     m <- and_ x (PInt (Z.shiftl 1 j)) ;;
     if ne_int m 0 then Ok (timing ++ T1) else Ok (timing ++ T0)) ;;
   Ok timing)%result.

Definition msg_not_a_list : string :=
  "Child of sequence buffer is not a list. Ignoring.".
Definition msg_not_3_elements : string :=
  "Child of sequence buffer has not 3 elements (R, G, B) Ignoring.".

(** [chain.convert_seq()]: converts the whole LED pattern from RGB to
    High/Low timing.  The two checks on [led] print and fall through
    ([pass]); [self.timing_buffer] is assigned after the loop only. *)
Definition convert_seq : M unit :=
  (let timing := [] in
   sb <- get seq_buffer ;;
   seq_len <- lift (len sb) ;;
   n <- get led_count ;;
   timing <- for_inM (range 0 n 1) timing (fun i timing =>
     sb <- get seq_buffer ;;
     k <- lift (mod_ i seq_len) ;;
     led <- lift (getitem sb k) ;;
     (if negb (isinstance_list led) then print msg_not_a_list else ret tt) ;;
     l <- lift (len led) ;;
     (if negb (l =? 3) then print msg_not_3_elements else ret tt) ;;
     t <- lift (convert_step led) ;;
     ret (timing ++ t)) ;;
   set_timing_buffer (Some timing))%method.

Definition help_example : string :=
  ("colorValues = [" ++ String "010" (String "009" "[led1_r, led1_g, led1_b], ")
   ++ "[led2_r, led2_g, led2_b], ... ]")%string.

(** [chain._printHelp(msg)] *)
Definition _printHelp (msg : string) : M unit :=
  (print (msg ++ " ex.:")%string ;;
   print help_example)%method.

(** [chain.set_seq(led_seq)] *)
Definition set_seq (led_seq : pyval) : M unit :=
  (if isinstance_list led_seq then
     set_seq_buffer led_seq ;;
     set_shift_pos 0 ;;
     l <- lift (len led_seq) ;;
     set_seq_buffer_len l ;;
     convert_seq
   else
     set_seq_buffer PNone ;;
     set_timing_buffer None ;;
     set_shift_pos 0 ;;
     set_seq_buffer_len 0 ;;
     _printHelp "Argument led_seq is not a list!")%method.

(** [buf[n:]] on the timing buffer, a tuple or [None]. *)
Definition slice_from (n : nat) (buf : option (list Z)) : result (list Z) :=
  match buf with
  | Some t => Ok (skipn n t)
  | None => Raise TypeError
  end.

(** [chain.shift_buffer()] *)
Definition shift_buffer : M unit :=
  (tb <- get timing_buffer ;;
   match tb with
   | Some _ =>
       p <- get shift_pos ;;
       set_shift_pos (p + 1) ;;
       p <- get shift_pos ;;
       l <- get seq_buffer_len ;;
       (if l <=? p then set_shift_pos 0 else ret tt) ;;
       tb <- get timing_buffer ;;
       front <- lift (slice_from 48 tb) ;;
       sb <- get seq_buffer ;;
       p <- get shift_pos ;;
       led <- lift (getitem sb p) ;;
       t <- lift (convert_step led) ;;
       set_timing_buffer (Some (front ++ t))
   | None => ret tt
   end)%method.

(** [chain.output_buffer()] *)
Definition output_buffer : M unit :=
  (tb <- get timing_buffer ;;
   match tb with
   | Some t =>
       let timing_complete := t ++ [TRST] in
       pin <- get gpio_pin ;;
       emit (RMT_new 3 pin 0) ;;
       emit (RMT_pulses_send timing_complete HIGH) ;;
       emit RMT_deinit
   | None => ret tt
   end)%method.

(* ================================================================== *)
(** * Colours and the encoding the specification describes *)
(* ================================================================== *)

(** A colour entry [[r, g, b]] as the caller writes it. *)
Definition color (r g b : Z) : pyval := PList [PInt r; PInt g; PInt b].

(** An unsigned 8-bit value. *)
Definition is_u8 (x : Z) : bool := (0 <=? x) && (x <=? 255).

(** An entry that is a list of exactly three integers. *)
Definition is_int_color (v : pyval) : bool :=
  match v with
  | PList [PInt _; PInt _; PInt _] => true
  | _ => false
  end.

(** An entry whose three channels are non-negative integers. *)
Definition is_nonneg_color (v : pyval) : bool :=
  match v with
  | PList [PInt r; PInt g; PInt b] => (0 <=? r) && (0 <=? g) && (0 <=? b)
  | _ => false
  end.

(** A well-formed colour: three unsigned 8-bit channels. *)
Definition is_color (v : pyval) : bool :=
  match v with
  | PList [PInt r; PInt g; PInt b] => is_u8 r && is_u8 g && is_u8 b
  | _ => false
  end.

(** The duration pair of one bit: (T1H, T1L) for 1, (T0H, T0L) for 0. *)
Definition bit_pair (b : bool) : list Z :=
  if b then [T1H; T1L] else [T0H; T0L].

(** The 8 low bits of [x], most significant first. *)
Definition bits_msb_first (x : Z) : list bool :=
  map (Z.testbit x) [7; 6; 5; 4; 3; 2; 1; 0].

Definition encode_channel (x : Z) : list Z :=
  flat_map bit_pair (bits_msb_first x).

(** Green, then red, then blue. *)
Definition encode_rgb (r g b : Z) : list Z :=
  encode_channel g ++ encode_channel r ++ encode_channel b.

(** The 48-value encoding of a colour entry. *)
Definition encode (v : pyval) : list Z :=
  match v with
  | PList [PInt r; PInt g; PInt b] => encode_rgb r g b
  | _ => []
  end.

(** The buffer of the specification for [n] LEDs: LED [i] shows entry
    [i mod L] of the sequence. *)
Definition build (cs : list pyval) (n : nat) : list Z :=
  flat_map (fun i => encode (nth (i mod List.length cs) cs PNone)) (seq 0 n).

(** The entry that the code selects for LED [i]. *)
Definition entry_at (cs : list pyval) (i : Z) : pyval :=
  nth (Z.to_nat (i mod Z.of_nat (List.length cs))) cs PNone.

(** The shift position after one step: incremented, and back to 0 when it
    reaches the length [l] of the sequence. *)
Definition next_pos (l p : Z) : Z := if p + 1 =? l then 0 else p + 1.

(** A chain on which the sequence [cs] is set, with timing buffer [tb] and
    shift position [p]. *)
Definition loaded (c : chain) (cs : list pyval) (tb : list Z) (p : Z) : chain :=
  mkChain (led_count c) (gpio_pin c) (Some tb) (PList cs)
          (Z.of_nat (List.length cs)) p.

(** The value of a list of bits read most significant first. *)
Definition bits_value (bs : list bool) : Z :=
  fold_left (fun acc b => 2 * acc + Z.b2z b) bs 0.

(** A sequence is set and shifting is possible: the stored length is the
    length of the stored sequence, a timing buffer is present and the shift
    position is an index of the sequence. *)
Definition ready (cs : list pyval) (c : chain) : Prop :=
  seq_buffer c = PList cs /\
  seq_buffer_len c = Z.of_nat (List.length cs) /\
  timing_buffer c <> None /\
  0 <= shift_pos c < Z.of_nat (List.length cs).

(** The invariants of a chain of [n] LEDs showing the sequence [cs]. *)
Definition chain_inv (n : Z) (cs : list pyval) (c : chain) : Prop :=
  led_count c = n /\
  seq_buffer c = PList cs /\
  seq_buffer_len c = Z.of_nat (List.length cs) /\
  (exists tb, timing_buffer c = Some tb /\ Z.of_nat (List.length tb) = n * 48) /\
  0 <= shift_pos c < Z.of_nat (List.length cs).

(** The encodings of the entries that the code selects for positions
    [first], [first + 1], ..., [first + n - 1]. *)
Definition window (cs : list pyval) (first n : nat) : list Z :=
  flat_map (fun j => encode (entry_at cs (Z.of_nat j))) (seq first n).

(** One of the four bit-timing constants. *)
Definition is_bit_duration (d : Z) : Prop :=
  d = T0H \/ d = T0L \/ d = T1H \/ d = T1L.

(** Every duration of the stored timing buffer, if there is one, is a
    bit-timing constant. *)
Definition durations_ok (c : chain) : Prop :=
  match timing_buffer c with
  | Some tb => Forall is_bit_duration tb
  | None => True
  end.

(** ** Decoding, as the specification describes it *)

(** (T1H, T1L) reads as 1, (T0H, T0L) as 0, any other pair is not a bit. *)
Definition decode_bit (high low : Z) : option bool :=
  if (high =? T1H) && (low =? T1L) then Some true
  else if (high =? T0H) && (low =? T0L) then Some false
  else None.

(** Reads [n] bits, most significant first, from the front of [buf] and
    returns their value (on top of [acc]) and the rest of the buffer. *)
Fixpoint decode_bits (n : nat) (acc : Z) (buf : list Z) : option (Z * list Z) :=
  match n with
  | O => Some (acc, buf)
  | S n' =>
      match buf with
      | high :: low :: rest =>
          match decode_bit high low with
          | Some b => decode_bits n' (2 * acc + Z.b2z b) rest
          | None => None
          end
      | _ => None
      end
  end.

(** One LED: green byte, red byte, blue byte; the colour is [[r, g, b]]. *)
Definition decode_led (buf : list Z) : option (pyval * list Z) :=
  match decode_bits 8 0 buf with
  | Some (g, buf1) =>
      match decode_bits 8 0 buf1 with
      | Some (r, buf2) =>
          match decode_bits 8 0 buf2 with
          | Some (b, buf3) => Some (color r g b, buf3)
          | None => None
          end
      | None => None
      end
  | None => None
  end.

(** [n] LEDs from the front of [buf]. *)
Fixpoint decode_leds (n : nat) (buf : list Z) : option (list pyval * list Z) :=
  match n with
  | O => Some ([], buf)
  | S n' =>
      match decode_led buf with
      | Some (c, rest) =>
          match decode_leds n' rest with
          | Some (cs, rest') => Some (c :: cs, rest')
          | None => None
          end
      | None => None
      end
  end.

(** A whole buffer: 48 values per LED, nothing left over. *)
Definition decode (buf : list Z) : option (list pyval) :=
  match decode_leds (List.length buf / 48) buf with
  | Some (cs, []) => Some cs
  | _ => None
  end.

(** ** Sequences of calls *)

Inductive call : Type :=
| Shift
| Output.

Definition do_call (c : call) : M unit :=
  match c with
  | Shift => shift_buffer
  | Output => output_buffer
  end.

(** The calls of [cs], one after the other. *)
Fixpoint do_calls (cs : list call) : M unit :=
  match cs with
  | [] => ret tt
  | c :: cs' => bind (do_call c) (fun _ => do_calls cs')
  end.

(** [k] calls of [shift_buffer]. *)
Definition shifts (k : nat) : M unit := do_calls (repeat Shift k).

(** ** Entries that the encoder accepts, and what is printed about them *)

(** The first three items of a list or tuple, when they are integers. *)
Definition leading_rgb (v : pyval) : option (Z * Z * Z) :=
  match v with
  | PList (PInt r :: PInt g :: PInt b :: _)
  | PTuple (PInt r :: PInt g :: PInt b :: _) => Some (r, g, b)
  | _ => None
  end.

Definition accepted (v : pyval) : bool :=
  match leading_rgb v with Some _ => true | None => false end.

(** The encoding of the first three items. *)
Definition encode_leading (v : pyval) : list Z :=
  match leading_rgb v with
  | Some (r, g, b) => encode_rgb r g b
  | None => []
  end.

(** The lines that the two checks of [convert_seq] print about an entry. *)
Definition entry_messages (v : pyval) : list event :=
  (if isinstance_list v then [] else [Print msg_not_a_list]) ++
  match len v with
  | Ok l => if l =? 3 then [] else [Print msg_not_3_elements]
  | Raise _ => []
  end.

(** The three calls on the peripheral that one [output_buffer] makes. *)
Definition frame_events (pin : string) (tb : list Z) : list event :=
  [RMT_new 3 pin 0; RMT_pulses_send (tb ++ [TRST]) HIGH; RMT_deinit].

Definition count_outputs (calls : list call) : nat :=
  List.length (filter (fun c => match c with Output => true | Shift => false end)
                      calls).

(** What every frame relies on: the invariants of the chain, a buffer of
    bit-timing constants, and the pin. *)
Definition frames_inv (n : Z) (cs : list pyval) (pin : string) (c : chain) : Prop :=
  chain_inv n cs c /\ durations_ok c /\ gpio_pin c = pin.

(** A buffer for [n] LEDs. *)
Definition is_frame_buffer (n : Z) (tb : list Z) : Prop :=
  Z.of_nat (List.length tb) = n * 48 /\ Forall is_bit_duration tb.

(** ** The self test of the module ([if __name__ == "__main__"]) *)

(** The colour wheel that the self test builds, by six loops over
    [range(step_size-1, led_brightness, step_size)] that append to
    [led_seq]; [led_brightness] and [step_size] are its local variables
    (64 and 2). *)
Definition demo_seq (led_brightness step_size : Z) : list pyval :=
  let led_seq := [] in
  let led_seq :=
    fold_left (fun led_seq i => led_seq ++ [PList [PInt (led_brightness - 1); PInt i; PInt 0]])
              (range (step_size - 1) led_brightness step_size) led_seq in
  let led_seq :=
    fold_left (fun led_seq i =>
                 led_seq ++ [PList [PInt (led_brightness - 1 - i); PInt (led_brightness - 1); PInt 0]])
              (range (step_size - 1) led_brightness step_size) led_seq in
  let led_seq :=
    fold_left (fun led_seq i => led_seq ++ [PList [PInt 0; PInt (led_brightness - 1); PInt i]])
              (range (step_size - 1) led_brightness step_size) led_seq in
  let led_seq :=
    fold_left (fun led_seq i =>
                 led_seq ++ [PList [PInt 0; PInt (led_brightness - 1 - i); PInt (led_brightness - 1)]])
              (range (step_size - 1) led_brightness step_size) led_seq in
  let led_seq :=
    fold_left (fun led_seq i => led_seq ++ [PList [PInt i; PInt 0; PInt (led_brightness - 1)]])
              (range (step_size - 1) led_brightness step_size) led_seq in
  let led_seq :=
    fold_left (fun led_seq i =>
                 led_seq ++ [PList [PInt (led_brightness - 1); PInt 0; PInt (led_brightness - 1 - i)]])
              (range (step_size - 1) led_brightness step_size) led_seq in
  led_seq.

(** The chain object together with the delay requested from
    [utime.sleep_ms] so far, in milliseconds. *)
Record system : Type := mkSystem {
  device : world;
  slept_ms : Z
}.

(** One round of the [while True] loop: shift, output, sleep 50 ms. *)
Definition main_iteration (s : system) : result unit * system :=
  match shift_buffer (device s) with
  | (Ok _, w1) =>
      match output_buffer w1 with
      | (Ok _, w2) => (Ok tt, mkSystem w2 (slept_ms s + 50))
      | (Raise e, w2) => (Raise e, mkSystem w2 (slept_ms s))
      end
  | (Raise e, w1) => (Raise e, mkSystem w1 (slept_ms s))
  end.

(** The first [n] rounds of the loop, which has no exit of its own. *)
Fixpoint main_loop (n : nat) (s : system) : result unit * system :=
  match n with
  | O => (Ok tt, s)
  | S n' =>
      match main_iteration s with
      | (Ok _, s') => main_loop n' s'
      | (Raise e, s') => (Raise e, s')
      end
  end.

(** The self test up to the end of round [n] of its loop. *)
Definition main (n : nat) : result unit * system :=
  let ws2812b := chain_init 4 "P22" in
  let led_seq := demo_seq 64 2 in
  match set_seq (PList led_seq) ws2812b with
  | (Ok _, w1) =>
      match output_buffer w1 with
      | (Ok _, w2) => main_loop n (mkSystem w2 0)
      | (Raise e, w2) => (Raise e, mkSystem w2 0)
      end
  | (Raise e, w1) => (Raise e, mkSystem w1 0)
  end.

(* ================================================================== *)
(** * Running the code on small inputs *)
(* ================================================================== *)

Example range_bits : range 7 (-1) (-1) = [7; 6; 5; 4; 3; 2; 1; 0].
Proof. reflexivity. Qed.

Example range_leds : range 0 4 1 = [0; 1; 2; 3].
Proof. reflexivity. Qed.

Example convert_step_red :
  convert_step (color 255 0 0) =
  Ok (List.concat (repeat T0 8) ++ List.concat (repeat T1 8) ++ List.concat (repeat T0 8)).
Proof. reflexivity. Qed.

Example convert_step_short : convert_step (PList [PInt 1; PInt 2]) = Raise IndexError.
Proof. reflexivity. Qed.

Example spec_scenario :
  let '(r, w) := set_seq (PList [color 255 0 0; color 0 255 0]) (chain_init 2 "P22") in
  r = Ok tt /\
  option_map (@List.length Z) (timing_buffer (self w)) = Some 96%nat /\
  option_map (firstn 48) (timing_buffer (self w)) = Some (encode_rgb 255 0 0) /\
  let '(r', w') := shift_buffer w in
  r' = Ok tt /\ shift_pos (self w') = 1 /\
  option_map (skipn 48) (timing_buffer (self w')) = Some (encode_rgb 0 255 0).
Proof. vm_compute. repeat split. Qed.

(* ================================================================== *)
(** * Bits and the encoder *)
(* ================================================================== *)

(** The test [x & (1 << j) != 0] of the source reads bit [j] of [x]. *)
Lemma land_shiftl_testbit (x j : Z) :
  0 <= j -> negb (Z.land x (Z.shiftl 1 j) =? 0) = Z.testbit x j.
Proof.
  intros Hj. rewrite Z.shiftl_1_l.
  destruct (Z.testbit x j) eqn:Hb.
  - apply negb_true_iff, Z.eqb_neq. intros H0.
    assert (Hc : Z.testbit (Z.land x (2 ^ j)) j = true).
    { rewrite Z.land_spec, Hb, Z.pow2_bits_true by assumption. reflexivity. }
    rewrite H0, Z.bits_0 in Hc. discriminate.
  - apply negb_false_iff, Z.eqb_eq. apply Z.bits_inj'. intros n Hn.
    rewrite Z.land_spec, Z.bits_0, Z.pow2_bits_eqb by assumption.
    destruct (Z.eqb_spec j n) as [->|_].
    + rewrite Hb. reflexivity.
    + apply andb_false_r.
Qed.

Lemma bit_pair_T (b : bool) : bit_pair b = if b then T1 else T0.
Proof. destruct b; reflexivity. Qed.

(** A loop whose body appends [f x] to the accumulator appends them all. *)
Lemma for_in_appends {X A} (P : X -> Prop) (f : X -> list A)
      (body : X -> list A -> result (list A)) (xs : list X) :
  (forall x acc, P x -> body x acc = Ok (acc ++ f x)) ->
  Forall P xs ->
  forall acc, for_in xs acc body = Ok (acc ++ flat_map f xs).
Proof.
  intros Hbody Hxs. induction Hxs as [|x xs Hx _ IH]; intros acc; cbn [for_in flat_map].
  - rewrite app_nil_r. reflexivity.
  - rewrite Hbody by assumption. cbn [rbind]. rewrite IH, <- app_assoc. reflexivity.
Qed.

(** One channel loop of [convert_step], for a channel that is an integer. *)
Lemma channel_loop (led : pyval) (idx x : Z) (js : list Z) :
  getitem led idx = Ok (PInt x) ->
  Forall (fun j => 0 <= j) js ->
  forall acc,
    for_in js acc (fun j timing =>
      (x <- getitem led idx ;;
       m <- and_ x (PInt (Z.shiftl 1 j)) ;;
       if ne_int m 0 then Ok (timing ++ T1) else Ok (timing ++ T0))%result)
    = Ok (acc ++ flat_map (fun j => bit_pair (Z.testbit x j)) js).
Proof.
  intros Hget Hjs.
  apply for_in_appends with (P := fun j => 0 <= j); [|assumption].
  intros j acc Hj. rewrite Hget. cbn [rbind and_ ne_int].
  rewrite land_shiftl_testbit by assumption.
  rewrite bit_pair_T. destruct (Z.testbit x j); reflexivity.
Qed.

Lemma bit_positions_nonneg : Forall (fun j => 0 <= j) (range 7 (-1) (-1)).
Proof. repeat constructor; discriminate. Qed.

Lemma encode_channel_flat_map (x : Z) :
  flat_map (fun j => bit_pair (Z.testbit x j)) (range 7 (-1) (-1))
  = encode_channel x.
Proof. reflexivity. Qed.

(** On a list of three integers the encoder returns the encoding of the
    specification, whatever the size or sign of the integers. *)
Lemma convert_step_color (r g b : Z) :
  convert_step (color r g b) = Ok (encode_rgb r g b).
Proof.
  unfold convert_step, encode_rgb.
  rewrite (channel_loop (color r g b) 1 g) by (reflexivity || apply bit_positions_nonneg).
  cbn [rbind].
  rewrite (channel_loop (color r g b) 0 r) by (reflexivity || apply bit_positions_nonneg).
  cbn [rbind].
  rewrite (channel_loop (color r g b) 2 b) by (reflexivity || apply bit_positions_nonneg).
  cbn [rbind].
  rewrite !encode_channel_flat_map, <- !app_assoc. reflexivity.
Qed.

Lemma is_int_color_inv (v : pyval) :
  is_int_color v = true -> exists r g b, v = color r g b.
Proof.
  destruct v as [| | | |l]; try discriminate.
  destruct l as [|[| r | | |] [|[| g | | |] [|[| b | | |] [|]]]]; try discriminate.
  intros _. exists r, g, b. reflexivity.
Qed.

Lemma is_color_int (v : pyval) : is_color v = true -> is_int_color v = true.
Proof.
  destruct v as [| | | |l]; try discriminate.
  destruct l as [|[| r | | |] [|[| g | | |] [|[| b | | |] [|]]]]; try discriminate.
  reflexivity.
Qed.

Lemma is_nonneg_color_int (v : pyval) :
  is_nonneg_color v = true -> is_int_color v = true.
Proof.
  destruct v as [| | | |l]; try discriminate.
  destruct l as [|[| r | | |] [|[| g | | |] [|[| b | | |] [|]]]]; try discriminate.
  reflexivity.
Qed.

Lemma convert_step_int_color (v : pyval) :
  is_int_color v = true -> convert_step v = Ok (encode v).
Proof.
  intros H. destruct (is_int_color_inv v H) as (r & g & b & ->).
  apply convert_step_color.
Qed.

Lemma flat_map_bit_pair_length (bs : list bool) :
  List.length (flat_map bit_pair bs) = (2 * List.length bs)%nat.
Proof.
  induction bs as [|b bs IH]; [reflexivity|].
  simpl flat_map. rewrite length_app, IH. destruct b; simpl; lia.
Qed.

Lemma encode_channel_length (x : Z) : List.length (encode_channel x) = 16%nat.
Proof. unfold encode_channel. rewrite flat_map_bit_pair_length. reflexivity. Qed.

Lemma encode_rgb_length (r g b : Z) : List.length (encode_rgb r g b) = 48%nat.
Proof.
  unfold encode_rgb. rewrite !length_app, !encode_channel_length. reflexivity.
Qed.

Lemma encode_length (v : pyval) :
  is_int_color v = true -> List.length (encode v) = 48%nat.
Proof.
  intros H. destruct (is_int_color_inv v H) as (r & g & b & ->).
  apply encode_rgb_length.
Qed.

(** ** Whatever the entry, the encoder returns bit-timing constants only *)

Lemma T0_durations : Forall is_bit_duration T0.
Proof.
  unfold T0. repeat (apply Forall_cons; [unfold is_bit_duration; auto|]).
  apply Forall_nil.
Qed.

Lemma T1_durations : Forall is_bit_duration T1.
Proof.
  unfold T1. repeat (apply Forall_cons; [unfold is_bit_duration; auto|]).
  apply Forall_nil.
Qed.

Lemma for_in_preserves {X A} (Q : A -> Prop) (body : X -> A -> result A)
      (xs : list X) :
  (forall x acc t, Q acc -> body x acc = Ok t -> Q t) ->
  forall acc t, Q acc -> for_in xs acc body = Ok t -> Q t.
Proof.
  intros Hbody. induction xs as [|x xs IH]; intros acc t Hacc; cbn [for_in].
  - intros [= <-]. assumption.
  - destruct (body x acc) as [acc'|e] eqn:Hb; cbn [rbind]; [|discriminate].
    apply IH. eapply Hbody; eassumption.
Qed.

Lemma channel_loop_durations (led : pyval) (idx : Z) (js : list Z) :
  forall acc t,
    Forall is_bit_duration acc ->
    for_in js acc (fun j timing =>
      (x <- getitem led idx ;;
       m <- and_ x (PInt (Z.shiftl 1 j)) ;;
       if ne_int m 0 then Ok (timing ++ T1) else Ok (timing ++ T0))%result)
    = Ok t ->
    Forall is_bit_duration t.
Proof.
  apply for_in_preserves. intros j acc t Hacc.
  destruct (getitem led idx) as [x|e]; cbn [rbind]; [|discriminate].
  destruct (and_ x (PInt (Z.shiftl 1 j))) as [m|e]; cbn [rbind]; [|discriminate].
  destruct (ne_int m 0); intros [= <-];
    apply Forall_app; split; auto using T0_durations, T1_durations.
Qed.

Ltac case_loop H :=
  match goal with
  | |- context [for_in ?xs ?acc ?body] =>
      destruct (for_in xs acc body) eqn:H; cbn [rbind]; [|discriminate]
  end.

Lemma convert_step_durations (led : pyval) (t : list Z) :
  convert_step led = Ok t -> Forall is_bit_duration t.
Proof.
  unfold convert_step.
  case_loop H1. apply channel_loop_durations in H1; [|constructor].
  case_loop H2. apply channel_loop_durations in H2; [|assumption].
  case_loop H3. apply channel_loop_durations in H3; [|assumption].
  intros [= <-]. assumption.
Qed.

(* ================================================================== *)
(** * The buffer builder *)
(* ================================================================== *)

Lemma index_nth {A} (l : list A) (i : Z) (d : A) :
  0 <= i < Z.of_nat (List.length l) -> index l i = Ok (nth (Z.to_nat i) l d).
Proof.
  intros Hi. unfold index.
  destruct (Z.ltb_spec i 0) as [?|_]; [lia|].
  destruct (Z.ltb_spec i 0) as [?|_]; [lia|].
  destruct (Z.leb_spec (Z.of_nat (List.length l)) i) as [?|_]; [lia|].
  cbn [orb].
  rewrite (nth_error_nth' l d) by lia. reflexivity.
Qed.

Lemma range_0_n (n : Z) : range 0 n 1 = map Z.of_nat (seq 0 (Z.to_nat n)).
Proof.
  unfold range. cbn [Z.ltb Z.compare].
  replace ((n - 0 + 1 - 1) / 1) with n by (rewrite Z.div_1_r; lia).
  apply map_ext. intros k. lia.
Qed.

Lemma for_inM_appends {X A} (f : X -> list A)
      (body : X -> list A -> M (list A)) (xs : list X) (w : world) :
  (forall x acc, body x acc w = (Ok (acc ++ f x), w)) ->
  forall acc, for_inM xs acc body w = (Ok (acc ++ flat_map f xs), w).
Proof.
  intros Hbody. induction xs as [|x xs IH]; intros acc; cbn [for_inM flat_map].
  - rewrite app_nil_r. reflexivity.
  - unfold bind. rewrite Hbody, IH, <- app_assoc. reflexivity.
Qed.

Lemma forallb_nth {A} (p : A -> bool) (l : list A) (d : A) (k : nat) :
  forallb p l = true -> (k < List.length l)%nat -> p (nth k l d) = true.
Proof.
  intros Hall Hk. rewrite forallb_forall in Hall. apply Hall, nth_In, Hk.
Qed.

Lemma is_int_color_list (v : pyval) :
  is_int_color v = true -> isinstance_list v = true /\ len v = Ok 3.
Proof.
  intros H. destruct (is_int_color_inv v H) as (r & g & b & ->). split; reflexivity.
Qed.

Lemma entry_at_int_color (cs : list pyval) (i : Z) :
  cs <> [] -> forallb is_int_color cs = true -> is_int_color (entry_at cs i) = true.
Proof.
  intros Hne Hall. apply forallb_nth; [assumption|].
  assert (0 < Z.of_nat (List.length cs)) by (destruct cs; [congruence|cbn; lia]).
  pose proof (Z.mod_pos_bound i (Z.of_nat (List.length cs))). lia.
Qed.

Lemma entry_at_of_nat (cs : list pyval) (k : nat) :
  entry_at cs (Z.of_nat k) = nth (k mod List.length cs) cs PNone.
Proof.
  unfold entry_at. rewrite <- Nat2Z.inj_mod, Nat2Z.id. reflexivity.
Qed.

(** [convert_seq] on a non-empty sequence of three-integer entries: no
    exception, nothing printed, and the buffer of the specification. *)
Lemma convert_seq_run (w : world) (cs : list pyval) :
  seq_buffer (self w) = PList cs ->
  cs <> [] ->
  forallb is_int_color cs = true ->
  convert_seq w =
  (Ok tt, mkWorld (with_timing_buffer
                     (Some (build cs (Z.to_nat (led_count (self w))))) (self w))
                  (trace w)).
Proof.
  intros Hsb Hne Hall.
  assert (HL : 0 < Z.of_nat (List.length cs)) by (destruct cs; [congruence|cbn; lia]).
  unfold convert_seq, bind at 1, get at 1. rewrite Hsb.
  unfold bind at 1, lift at 1. cbn [len].
  unfold bind at 1, get at 1.
  unfold bind at 1.
  rewrite (for_inM_appends (fun i => encode (entry_at cs i))).
  - unfold set_timing_buffer, modify. cbn [app]. f_equal. f_equal. f_equal. f_equal.
    rewrite range_0_n, flat_map_concat_map, map_map, <- flat_map_concat_map.
    unfold build. apply flat_map_ext. intros k. rewrite entry_at_of_nat. reflexivity.
  - intros i acc. unfold bind, get, lift, mod_. rewrite Hsb.
    destruct (Z.eqb_spec (Z.of_nat (List.length cs)) 0) as [?|_]; [lia|].
    cbn [getitem].
    rewrite (index_nth cs _ PNone)
      by (apply Z.mod_pos_bound; assumption).
    fold (entry_at cs i).
    pose proof (entry_at_int_color cs i Hne Hall) as Hc.
    destruct (is_int_color_list _ Hc) as [Hl Hn].
    rewrite Hl, Hn, (convert_step_int_color _ Hc). reflexivity.
Qed.

Lemma set_seq_run (w : world) (cs : list pyval) :
  cs <> [] ->
  forallb is_int_color cs = true ->
  set_seq (PList cs) w =
  (Ok tt, mkWorld (loaded (self w) cs
                          (build cs (Z.to_nat (led_count (self w)))) 0)
                  (trace w)).
Proof.
  intros Hne Hall. unfold set_seq. cbn [isinstance_list].
  unfold bind at 1, set_seq_buffer, modify at 1.
  unfold bind at 1, set_shift_pos, modify at 1.
  unfold bind at 1, lift at 1. cbn [len].
  unfold bind at 1, set_seq_buffer_len, modify at 1.
  rewrite (convert_seq_run _ cs) by (reflexivity || assumption).
  reflexivity.
Qed.

Lemma build_length (cs : list pyval) (n : nat) :
  cs <> [] ->
  forallb is_int_color cs = true ->
  List.length (build cs n) = (n * 48)%nat.
Proof.
  intros Hne Hall. unfold build.
  rewrite flat_map_constant_length with (c := 48%nat), length_seq; [reflexivity|].
  intros i _. apply encode_length. rewrite <- entry_at_of_nat.
  apply entry_at_int_color; assumption.
Qed.

(* ================================================================== *)
(** * The shift *)
(* ================================================================== *)

Lemma shift_buffer_run (w : world) (cs : list pyval) (tb : list Z) :
  timing_buffer (self w) = Some tb ->
  seq_buffer (self w) = PList cs ->
  seq_buffer_len (self w) = Z.of_nat (List.length cs) ->
  forallb is_int_color cs = true ->
  0 <= shift_pos (self w) < Z.of_nat (List.length cs) ->
  let p := next_pos (Z.of_nat (List.length cs)) (shift_pos (self w)) in
  shift_buffer w =
  (Ok tt, mkWorld (with_timing_buffer
                     (Some (skipn 48 tb ++ encode (nth (Z.to_nat p) cs PNone)))
                     (with_shift_pos p (self w)))
                  (trace w)).
Proof.
  intros Htb Hsb Hlen Hall Hp p.
  assert (Hp' : 0 <= p < Z.of_nat (List.length cs)).
  { unfold p, next_pos. destruct (Z.eqb_spec (shift_pos (self w) + 1)
                                              (Z.of_nat (List.length cs))); lia. }
  assert (Hsrc : (if Z.of_nat (List.length cs) <=? shift_pos (self w) + 1
                  then 0 else shift_pos (self w) + 1) = p).
  { unfold p, next_pos.
    destruct (Z.leb_spec (Z.of_nat (List.length cs)) (shift_pos (self w) + 1));
      destruct (Z.eqb_spec (shift_pos (self w) + 1) (Z.of_nat (List.length cs)));
      lia. }
  unfold shift_buffer. unfold bind at 1, get at 1. rewrite Htb.
  unfold bind, get, set_shift_pos, modify, lift, set_timing_buffer.
  cbn [self trace with_shift_pos shift_pos seq_buffer_len seq_buffer
       timing_buffer led_count gpio_pin].
  rewrite Hlen.
  destruct (Z.leb_spec (Z.of_nat (List.length cs)) (shift_pos (self w) + 1)) as [Hw|Hw];
    cbn [ret self trace with_shift_pos shift_pos seq_buffer_len seq_buffer
         timing_buffer led_count gpio_pin];
    rewrite Htb, Hsb; cbn [getitem];
    rewrite Hsrc in *.
  all: rewrite (index_nth cs _ PNone) by (rewrite <- ?Hsrc; lia).
  all: rewrite convert_step_int_color
    by (apply forallb_nth; [assumption|lia]).
  all: unfold with_timing_buffer, with_shift_pos; cbn; rewrite ?Hsrc; reflexivity.
Qed.

(** Reads the attributes of an updated object. *)
Ltac fields :=
  cbn [self trace with_timing_buffer with_shift_pos with_seq_buffer
       with_seq_buffer_len loaded led_count gpio_pin timing_buffer
       seq_buffer seq_buffer_len shift_pos].

(** After a shift on a ready chain the chain is ready again. *)
Lemma shift_buffer_ready (w : world) (cs : list pyval) :
  forallb is_int_color cs = true ->
  ready cs (self w) ->
  exists w', shift_buffer w = (Ok tt, w') /\ ready cs (self w') /\
             trace w' = trace w.
Proof.
  intros Hall (Hsb & Hlen & Htb & Hp).
  destruct (timing_buffer (self w)) as [tb|] eqn:Etb; [|congruence].
  eexists. split; [apply (shift_buffer_run w cs tb); assumption|].
  split; [|reflexivity].
  repeat split; fields; try assumption; try discriminate.
  all: unfold next_pos;
    destruct (Z.eqb_spec (shift_pos (self w) + 1) (Z.of_nat (List.length cs))); lia.
Qed.

Lemma shift_buffer_inv (w : world) (n : Z) (cs : list pyval) :
  0 < n ->
  forallb is_int_color cs = true ->
  chain_inv n cs (self w) ->
  exists w', shift_buffer w = (Ok tt, w') /\ chain_inv n cs (self w').
Proof.
  intros Hn Hall (Hc & Hsb & Hlen & (tb & Htb & Hl) & Hp).
  eexists. split; [apply (shift_buffer_run w cs tb); assumption|].
  assert (Hnext : 0 <= next_pos (Z.of_nat (List.length cs)) (shift_pos (self w))
                  < Z.of_nat (List.length cs)).
  { unfold next_pos.
    destruct (Z.eqb_spec (shift_pos (self w) + 1) (Z.of_nat (List.length cs))); lia. }
  repeat split; fields; try assumption; try lia.
  eexists. split; [reflexivity|].
  rewrite length_app, length_skipn, encode_length
    by (apply forallb_nth; [assumption|lia]).
  lia.
Qed.

Lemma set_seq_inv (w : world) (cs : list pyval) :
  0 < led_count (self w) ->
  cs <> [] ->
  forallb is_int_color cs = true ->
  exists w', set_seq (PList cs) w = (Ok tt, w') /\
             chain_inv (led_count (self w)) cs (self w').
Proof.
  intros Hn Hne Hall. eexists. split; [apply set_seq_run; assumption|].
  repeat split; fields; try lia.
  - eexists. split; [reflexivity|]. rewrite build_length by assumption. lia.
  - destruct cs; [congruence|cbn; lia].
Qed.

(* ================================================================== *)
(** * Only bit-timing constants enter the stored buffer *)
(* ================================================================== *)

(** A loop whose body leaves the object alone and keeps [Q] on the local
    variable does so as a whole, whether it ends normally or raises. *)
Lemma for_inM_inv {X A} (Q : A -> Prop) (c : chain)
      (body : X -> A -> M A) (xs : list X) :
  (forall x acc w, Q acc -> self w = c ->
     self (snd (body x acc w)) = c /\
     forall a, fst (body x acc w) = Ok a -> Q a) ->
  forall acc w, Q acc -> self w = c ->
    self (snd (for_inM xs acc body w)) = c /\
    forall a, fst (for_inM xs acc body w) = Ok a -> Q a.
Proof.
  intros Hbody. induction xs as [|x xs IH]; intros acc w Hacc Hw; cbn [for_inM].
  - split; [assumption|]. intros a [= <-]. assumption.
  - unfold bind. destruct (Hbody x acc w Hacc Hw) as [Hs Hq].
    destruct (body x acc w) as [[acc'|e] w']; cbn [fst snd] in *.
    + apply IH; [apply Hq; reflexivity | assumption].
    + split; [assumption | discriminate].
Qed.

Ltac case_match :=
  match goal with
  | |- context [if negb ?b then _ else _] => destruct b eqn:?; cbn [negb]
  | |- context [match ?x with _ => _ end] => destruct x eqn:?
  end.

Lemma convert_seq_durations (w : world) :
  durations_ok (self w) -> durations_ok (self (snd (convert_seq w))).
Proof.
  intros Hw. unfold convert_seq, bind at 1, get at 1.
  unfold bind at 1, lift at 1.
  destruct (len (seq_buffer (self w))) as [seq_len|e]; [|assumption].
  unfold bind at 1, get at 1. unfold bind at 1.
  match goal with
  | |- context [for_inM ?xs ?a ?body w] =>
      assert (HB : forall x acc w0,
                 Forall is_bit_duration acc -> self w0 = self w ->
                 self (snd (body x acc w0)) = self w /\
                 forall t, fst (body x acc w0) = Ok t -> Forall is_bit_duration t);
      [ | destruct (for_inM_inv _ _ body xs HB a w (Forall_nil _) eq_refl)
            as [Hs Hq];
          destruct (for_inM xs a body w) as [[t|e] w'];
          cbn [fst snd] in *;
          [ unfold set_timing_buffer, modify, durations_ok; fields;
            apply Hq; reflexivity
          | rewrite Hs; assumption ] ]
  end.
  intros i acc w0 Hacc Hw0.
  unfold bind, get, lift, print, emit, ret.
  repeat (case_match; cbn [fst snd self]);
    (split; [assumption | try discriminate]).
  all: intros t0 [= <-]; (apply Forall_app; split; [assumption|]);
    eapply convert_step_durations; eassumption.
Qed.

Lemma set_seq_durations (v : pyval) (w : world) :
  durations_ok (self w) -> durations_ok (self (snd (set_seq v w))).
Proof.
  intros Hw. unfold set_seq.
  destruct v as [| | | |l]; cbn [isinstance_list];
    try (unfold bind, set_seq_buffer, set_timing_buffer, set_shift_pos,
           set_seq_buffer_len, _printHelp, print, emit, modify, durations_ok;
         cbn; exact I).
  unfold bind at 1, set_seq_buffer, modify at 1.
  unfold bind at 1, set_shift_pos, modify at 1.
  unfold bind at 1, lift at 1. cbn [len].
  unfold bind at 1, set_seq_buffer_len, modify at 1.
  apply convert_seq_durations. exact Hw.
Qed.

Lemma Forall_skipn_keeps {A} (P : A -> Prop) (n : nat) :
  forall l, Forall P l -> Forall P (skipn n l).
Proof.
  induction n as [|n IH]; intros l Hl; [exact Hl|].
  destruct Hl as [|x l Hx Hl]; [constructor|]. cbn [skipn]. apply IH, Hl.
Qed.

Lemma shift_buffer_durations (w : world) :
  durations_ok (self w) -> durations_ok (self (snd (shift_buffer w))).
Proof.
  intros Hw. unfold shift_buffer. unfold bind at 1, get at 1.
  destruct (timing_buffer (self w)) as [tb|] eqn:Htb; [|exact Hw].
  assert (Htb' : Forall is_bit_duration tb).
  { unfold durations_ok in Hw. rewrite Htb in Hw. exact Hw. }
  unfold bind, get, set_shift_pos, set_timing_buffer, modify, lift, ret.
  fields.
  destruct (seq_buffer_len (self w) <=? shift_pos (self w) + 1); fields.
  all: repeat (case_match; fields; cbn [fst snd]);
    unfold durations_ok; fields; rewrite ?Htb; try assumption.
  all: apply Forall_app; split;
    [ | eapply convert_step_durations; eassumption ].
  all: match goal with
       | H : slice_from _ _ = Ok ?a |- _ =>
           rewrite Htb in H;
           assert (E : a = skipn 48 tb) by (cbn [slice_from] in H; congruence);
           rewrite E
       end.
  all: apply Forall_skipn_keeps; assumption.
Qed.

Lemma output_buffer_self (w : world) : self (snd (output_buffer w)) = self w.
Proof.
  unfold output_buffer, bind, get, emit, ret.
  destruct (timing_buffer (self w)); reflexivity.
Qed.

Lemma do_calls_durations (cs : list call) :
  forall w, durations_ok (self w) -> durations_ok (self (snd (do_calls cs w))).
Proof.
  induction cs as [|c cs IH]; intros w Hw; cbn [do_calls]; [exact Hw|].
  unfold bind.
  assert (H1 : durations_ok (self (snd (do_call c w)))).
  { destruct c; cbn [do_call].
    - apply shift_buffer_durations, Hw.
    - rewrite output_buffer_self. exact Hw. }
  destruct (do_call c w) as [[[]|e] w']; cbn [snd] in *; [apply IH|]; assumption.
Qed.

Lemma output_buffer_run (w : world) (tb : list Z) :
  timing_buffer (self w) = Some tb ->
  output_buffer w =
  (Ok tt, mkWorld (self w)
                  (trace w ++ [RMT_new 3 (gpio_pin (self w)) 0;
                               RMT_pulses_send (tb ++ [TRST]) HIGH;
                               RMT_deinit])).
Proof.
  intros Htb. unfold output_buffer, bind, get, emit. rewrite Htb. fields.
  rewrite <- !app_assoc. reflexivity.
Qed.

(** On a ready chain every sequence of calls runs to its end. *)
Lemma do_calls_ready (cs : list pyval) (calls : list call) :
  forallb is_int_color cs = true ->
  forall w, ready cs (self w) ->
    exists w', do_calls calls w = (Ok tt, w') /\ ready cs (self w').
Proof.
  intros Hall. induction calls as [|c calls IH]; intros w Hw; cbn [do_calls].
  - exists w. split; [reflexivity | assumption].
  - unfold bind. destruct c; cbn [do_call].
    + destruct (shift_buffer_ready w cs Hall Hw) as (w1 & -> & Hw1 & _).
      apply IH, Hw1.
    + destruct (timing_buffer (self w)) as [tb|] eqn:Htb;
        [|destruct Hw as (_ & _ & Hne & _); congruence].
      rewrite (output_buffer_run w tb Htb). apply IH. exact Hw.
Qed.

(* ================================================================== *)
(** * Decoding *)
(* ================================================================== *)

Lemma decode_bit_pair (b : bool) (rest : list Z) :
  exists high low,
    bit_pair b ++ rest = high :: low :: rest /\ decode_bit high low = Some b.
Proof. destruct b; do 2 eexists; split; reflexivity. Qed.

Lemma decode_bits_pairs (bs : list bool) :
  forall acc rest,
    decode_bits (List.length bs) acc (flat_map bit_pair bs ++ rest)
    = Some (fold_left (fun a b => 2 * a + Z.b2z b) bs acc, rest).
Proof.
  induction bs as [|b bs IH]; intros acc rest; [reflexivity|].
  cbn [List.length flat_map fold_left]. rewrite <- app_assoc.
  destruct (decode_bit_pair b (flat_map bit_pair bs ++ rest)) as (h & l & -> & Hd).
  cbn [decode_bits]. rewrite Hd. apply IH.
Qed.

(** A property checked on the 256 values holds of every unsigned 8-bit
    value. *)
Lemma u8_cases (P : Z -> bool) :
  forallb P (map Z.of_nat (seq 0 256)) = true ->
  forall x, is_u8 x = true -> P x = true.
Proof.
  intros Hall x Hx. rewrite forallb_forall in Hall. apply Hall.
  unfold is_u8 in Hx. apply andb_true_iff in Hx. destruct Hx as [H0 H1].
  apply Z.leb_le in H0, H1.
  rewrite <- (Z2Nat.id x) by assumption. apply in_map, in_seq. lia.
Qed.

Lemma bits_value_u8 (x : Z) : is_u8 x = true -> bits_value (bits_msb_first x) = x.
Proof.
  intros Hx. apply Z.eqb_eq.
  apply (u8_cases (fun x => bits_value (bits_msb_first x) =? x)); [|assumption].
  vm_compute. reflexivity.
Qed.

Lemma decode_channel (x : Z) (rest : list Z) :
  is_u8 x = true -> decode_bits 8 0 (encode_channel x ++ rest) = Some (x, rest).
Proof.
  intros Hx. unfold encode_channel.
  change 8%nat with (List.length (bits_msb_first x)).
  rewrite decode_bits_pairs. fold (bits_value (bits_msb_first x)).
  rewrite bits_value_u8 by assumption. reflexivity.
Qed.

Lemma decode_led_rgb (r g b : Z) (rest : list Z) :
  is_u8 r = true -> is_u8 g = true -> is_u8 b = true ->
  decode_led (encode_rgb r g b ++ rest) = Some (color r g b, rest).
Proof.
  intros Hr Hg Hb. unfold decode_led, encode_rgb. rewrite <- !app_assoc.
  rewrite (decode_channel g), (decode_channel r), (decode_channel b) by assumption.
  reflexivity.
Qed.

Lemma is_color_inv (v : pyval) :
  is_color v = true ->
  exists r g b, v = color r g b /\
                is_u8 r = true /\ is_u8 g = true /\ is_u8 b = true.
Proof.
  intros H. destruct (is_int_color_inv v (is_color_int v H)) as (r & g & b & ->).
  cbn in H. apply andb_true_iff in H. destruct H as [H Hb].
  apply andb_true_iff in H. destruct H as [Hr Hg].
  exists r, g, b. auto.
Qed.

Lemma decode_leds_encode (cs : list pyval) :
  forallb is_color cs = true ->
  forall rest,
    decode_leds (List.length cs) (flat_map encode cs ++ rest) = Some (cs, rest).
Proof.
  induction cs as [|c cs IH]; intros Hall rest; [reflexivity|].
  cbn [forallb] in Hall. apply andb_true_iff in Hall. destruct Hall as [Hc Hall].
  destruct (is_color_inv c Hc) as (r & g & b & -> & Hr & Hg & Hb).
  cbn [List.length flat_map decode_leds]. change (encode (color r g b)) with (encode_rgb r g b).
  rewrite <- app_assoc, decode_led_rgb by assumption.
  rewrite IH by assumption. reflexivity.
Qed.

Lemma forallb_color_int (cs : list pyval) :
  forallb is_color cs = true -> forallb is_int_color cs = true.
Proof.
  rewrite !forallb_forall. intros H v Hv. apply is_color_int, H, Hv.
Qed.

Lemma forallb_nonneg_int (cs : list pyval) :
  forallb is_nonneg_color cs = true -> forallb is_int_color cs = true.
Proof.
  rewrite !forallb_forall. intros H v Hv. apply is_nonneg_color_int, H, Hv.
Qed.

Lemma flat_map_encode_length (cs : list pyval) :
  forallb is_int_color cs = true ->
  List.length (flat_map encode cs) = (List.length cs * 48)%nat.
Proof.
  intros Hall. apply flat_map_constant_length.
  intros v Hv. rewrite forallb_forall in Hall. apply encode_length, Hall, Hv.
Qed.

Lemma decode_encode (cs : list pyval) :
  forallb is_color cs = true -> decode (flat_map encode cs) = Some cs.
Proof.
  intros Hall. unfold decode.
  rewrite flat_map_encode_length by (apply forallb_color_int; assumption).
  rewrite Nat.div_mul by discriminate.
  rewrite <- (app_nil_r (flat_map encode cs)).
  rewrite decode_leds_encode by assumption. reflexivity.
Qed.

Lemma map_nth_seq {A} (d : A) (l : list A) :
  map (fun i => nth i l d) (seq 0 (List.length l)) = l.
Proof.
  induction l as [|x l IH]; [reflexivity|].
  cbn [List.length seq map nth]. rewrite <- seq_shift, map_map. cbn [nth].
  rewrite IH. reflexivity.
Qed.

(** With as many LEDs as entries, LED [i] shows entry [i]. *)
Lemma build_exact (cs : list pyval) :
  build cs (List.length cs) = flat_map encode cs.
Proof.
  unfold build.
  transitivity (flat_map encode
                  (map (fun i => nth i cs PNone) (seq 0 (List.length cs))));
    [|rewrite map_nth_seq; reflexivity].
  rewrite !flat_map_concat_map, map_map. f_equal.
  apply map_ext_in. intros i Hi. apply in_seq in Hi.
  rewrite Nat.mod_small by lia. reflexivity.
Qed.

Lemma encode_durations (v : pyval) : Forall is_bit_duration (encode v).
Proof.
  destruct v as [| | | |l]; try constructor.
  destruct l as [|[| r | | |] [|[| g | | |] [|[| b | | |] [|]]]]; try constructor.
  apply (convert_step_durations (color r g b)), convert_step_color.
Qed.

Lemma build_durations (cs : list pyval) (n : nat) :
  Forall is_bit_duration (build cs n).
Proof.
  unfold build. apply Forall_flat_map, Forall_forall.
  intros i _. apply encode_durations.
Qed.

Lemma set_seq_then_calls_durations (v : pyval) (calls : list call) (w : world) :
  durations_ok (self w) ->
  durations_ok (self (snd (bind (set_seq v) (fun _ => do_calls calls) w))).
Proof.
  intros Hw. unfold bind.
  pose proof (set_seq_durations v w Hw) as H1.
  destruct (set_seq v w) as [[[]|e] w1]; cbn [snd] in *; [|assumption].
  apply do_calls_durations, H1.
Qed.

Lemma loaded_ready (c : chain) (cs : list pyval) (tb : list Z) :
  cs <> [] -> ready cs (loaded c cs tb 0).
Proof.
  intros Hne. repeat split; fields; try discriminate; try lia.
  destruct cs; [congruence | cbn; lia].
Qed.

(* ================================================================== *)
(** * The buffer after any number of shifts *)
(* ================================================================== *)

Lemma do_calls_app (a b : list call) (w : world) :
  do_calls (a ++ b) w = bind (do_calls a) (fun _ => do_calls b) w.
Proof.
  revert w. induction a as [|c a IH]; intros w; cbn [app do_calls].
  - reflexivity.
  - unfold bind. destruct (do_call c w) as [[[]|e] w1]; [|reflexivity].
    rewrite IH. reflexivity.
Qed.

Lemma shifts_S (k : nat) (w : world) :
  shifts (S k) w = bind (shifts k) (fun _ => shift_buffer) w.
Proof.
  unfold shifts. cbn [repeat]. rewrite repeat_cons, do_calls_app.
  unfold bind. destruct (do_calls (repeat Shift k) w) as [[[]|e] w1]; [|reflexivity].
  cbn [do_calls do_call]. unfold bind, ret.
  destruct (shift_buffer w1) as [[[]|e] w2]; reflexivity.
Qed.

Lemma next_pos_mod (l k : Z) : 0 < l -> next_pos l (k mod l) = (k + 1) mod l.
Proof.
  intros Hl. unfold next_pos.
  pose proof (Z.mod_pos_bound k l Hl) as Hb.
  rewrite <- (Z.add_mod_idemp_l k 1 l) by lia.
  destruct (Z.eqb_spec (k mod l + 1) l) as [E|E].
  - rewrite E, Z.mod_same by lia. reflexivity.
  - rewrite (Z.mod_small (k mod l + 1) l) by lia. reflexivity.
Qed.

Lemma skipn_flat_map_chunks {A B} (f : A -> list B) (c : nat) :
  (forall x, List.length (f x) = c) ->
  forall m l, skipn (m * c) (flat_map f l) = flat_map f (skipn m l).
Proof.
  intros Hf. induction m as [|m IH]; intros l; [reflexivity|].
  destruct l as [|x l]; cbn [flat_map skipn].
  - apply skipn_nil.
  - rewrite skipn_app, (Hf x).
    rewrite skipn_all2 by (rewrite Hf; cbn; lia).
    replace (S m * c - c)%nat with (m * c)%nat by (cbn; lia).
    cbn [app]. apply IH.
Qed.

Lemma seq_add_shift (s n : nat) :
  forall a, seq (a + s) n = map (fun j => (j + s)%nat) (seq a n).
Proof.
  induction n as [|n IH]; intros a; cbn [seq map]; [reflexivity|].
  f_equal. apply (IH (S a)).
Qed.

Section FixedSequence.

(** A fixed, non-empty sequence of three-integer entries, set on a chain
    of N > 0 LEDs. *)
Variable cs : list pyval.
Hypothesis cs_nonempty : cs <> [].
Hypothesis cs_colors : forallb is_int_color cs = true.

Variable w : world.
Hypothesis leds : 0 < led_count (self w).

Let N : nat := Z.to_nat (led_count (self w)).
Let L : nat := List.length cs.

Lemma build_window (n : nat) : build cs n = window cs 0 n.
Proof.
  unfold build, window. apply flat_map_ext. intros i.
  rewrite entry_at_of_nat. reflexivity.
Qed.

Lemma window_length (first n : nat) :
  List.length (window cs first n) = (n * 48)%nat.
Proof.
  unfold window.
  rewrite flat_map_constant_length with (c := 48%nat), length_seq; [reflexivity|].
  intros i _. apply encode_length, entry_at_int_color; assumption.
Qed.

Lemma window_S (first n : nat) :
  window cs first (S n)
  = window cs first n ++ encode (entry_at cs (Z.of_nat (first + n))).
Proof.
  unfold window. rewrite seq_S, flat_map_app. cbn [flat_map].
  rewrite app_nil_r. reflexivity.
Qed.

Lemma entry_at_period (i : Z) : entry_at cs (i + Z.of_nat L) = entry_at cs i.
Proof.
  unfold entry_at, L. destruct cs as [|c cs'] eqn:E; [congruence|].
  rewrite <- (Z.mul_1_l (Z.of_nat (List.length (c :: cs')))) at 1.
  rewrite Z.mod_add by (cbn [List.length]; lia). reflexivity.
Qed.

Lemma window_period (first n : nat) :
  window cs (first + L) n = window cs first n.
Proof.
  unfold window. rewrite seq_add_shift.
  rewrite flat_map_concat_map, map_map, <- flat_map_concat_map.
  apply flat_map_ext. intros j.
  rewrite Nat2Z.inj_add, entry_at_period. reflexivity.
Qed.

(** After [set_seq] and [k] shifts the buffer is the last N * 48 values
    of the initial buffer followed by the encodings of entries
    1, 2, ..., k (cyclically), and the shift position is [k mod L]. *)
Lemma shifts_closed_form (k : nat) :
  bind (set_seq (PList cs)) (fun _ => shifts k) w =
  (Ok tt,
   mkWorld (loaded (self w) cs
              (skipn (k * 48) (window cs 0 N ++ window cs 1 k))
              (Z.of_nat k mod Z.of_nat L))
           (trace w)).
Proof.
  assert (HL : 0 < Z.of_nat L)
    by (unfold L; destruct cs; [congruence|cbn; lia]).
  unfold bind. rewrite set_seq_run by assumption. rewrite build_window.
  fold N. induction k as [|k IH].
  - cbn [shifts repeat do_calls ret Nat.mul skipn window seq flat_map].
    rewrite app_nil_r, Z.mod_0_l by lia. reflexivity.
  - rewrite shifts_S. unfold bind. rewrite IH.
    set (buf := skipn (k * 48) _).
    rewrite (shift_buffer_run _ cs buf); fields;
      try reflexivity; try assumption;
      [|apply Z.mod_pos_bound; assumption].
    cbv zeta. fold L. rewrite next_pos_mod by assumption.
    unfold loaded, with_timing_buffer, with_shift_pos. fields.
    replace (Z.of_nat k + 1) with (Z.of_nat (S k)) by lia.
    fold L. fold (entry_at cs (Z.of_nat (S k))).
    do 4 f_equal. unfold buf.
    rewrite skipn_skipn, window_S, app_assoc. symmetry.
    rewrite skipn_app.
    replace (S k * 48 - _)%nat with 0%nat
      by (rewrite length_app, !window_length; lia).
    reflexivity.
Qed.

(** From the N-th shift on, the buffer is a window of N consecutive
    entries of the cyclic sequence, ending at the shift position. *)
Lemma shifts_steady_state (k : nat) :
  (N <= k)%nat ->
  bind (set_seq (PList cs)) (fun _ => shifts k) w =
  (Ok tt,
   mkWorld (loaded (self w) cs (window cs (1 + k - N) N)
                   (Z.of_nat k mod Z.of_nat L))
           (trace w)).
Proof.
  intros Hk. rewrite shifts_closed_form.
  do 3 f_equal.
  rewrite skipn_app, window_length.
  rewrite skipn_all2 by (rewrite window_length; lia).
  cbn [app].
  replace (k * 48 - N * 48)%nat with ((k - N) * 48)%nat by lia.
  unfold window at 1.
  rewrite skipn_flat_map_chunks
    by (intros j; apply encode_length, entry_at_int_color; assumption).
  rewrite skipn_seq. unfold window. do 2 f_equal; lia.
Qed.

(** X1.  Once N shifts have been made after [set_seq], L further shifts
    bring the chain (timing buffer and shift position) and the trace back
    to what they were. *)
Lemma shifts_periodic_after_warm_up (k : nat) :
  (N <= k)%nat ->
  fst (bind (set_seq (PList cs)) (fun _ => shifts (k + L)) w) = Ok tt /\
  bind (set_seq (PList cs)) (fun _ => shifts (k + L)) w
  = bind (set_seq (PList cs)) (fun _ => shifts k) w.
Proof.
  intros Hk.
  rewrite !shifts_steady_state by lia.
  split; [reflexivity|].
  do 3 f_equal.
  - replace (1 + (k + L) - N)%nat with (1 + k - N + L)%nat by lia.
    apply window_period.
  - rewrite Nat2Z.inj_add.
    rewrite <- (Z.mul_1_l (Z.of_nat L)) at 1.
    apply Z.mod_add. unfold L. destruct cs; [congruence | cbn; lia].
Qed.

End FixedSequence.

Lemma shifts_periodic_after_warm_up_witness :
  let cs := [color 255 0 0; color 0 255 0] in
  let w := chain_init 2 "P22" in
  (cs <> [] /\ forallb is_int_color cs = true /\
   0 < led_count (self w) /\ (Z.to_nat (led_count (self w)) <= 2)%nat) /\
  fst (bind (set_seq (PList cs)) (fun _ => shifts (2 + List.length cs)) w) = Ok tt /\
  bind (set_seq (PList cs)) (fun _ => shifts (2 + List.length cs)) w
  = bind (set_seq (PList cs)) (fun _ => shifts 2) w.
Proof.
  cbv zeta.
  split; [repeat split; discriminate || reflexivity || (cbn; lia)|].
  apply (shifts_periodic_after_warm_up
           [color 255 0 0; color 0 255 0]
           ltac:(discriminate) eq_refl
           (chain_init 2 "P22") eq_refl 2%nat).
  cbn. lia.
Defined.

(* ================================================================== *)
(** * The claims *)
(* ================================================================== *)

(** C1.  For every colour entry of three unsigned 8-bit channels,
    [convert_step] returns exactly 48 duration values: the 8 bits of the
    green channel, most significant first, then those of the red channel,
    then those of the blue channel, a 1-bit contributing (T1H, T1L) and a
    0-bit (T0H, T0L).  The 8 bits listed are the whole value of each
    channel. *)
Theorem convert_step_encodes_grb (r g b : Z) :
  is_u8 r = true -> is_u8 g = true -> is_u8 b = true ->
  exists timing,
    convert_step (PList [PInt r; PInt g; PInt b]) = Ok timing /\
    List.length timing = 48%nat /\
    timing =
      flat_map bit_pair (map (Z.testbit g) [7; 6; 5; 4; 3; 2; 1; 0]) ++
      flat_map bit_pair (map (Z.testbit r) [7; 6; 5; 4; 3; 2; 1; 0]) ++
      flat_map bit_pair (map (Z.testbit b) [7; 6; 5; 4; 3; 2; 1; 0]) /\
    bits_value (map (Z.testbit g) [7; 6; 5; 4; 3; 2; 1; 0]) = g /\
    bits_value (map (Z.testbit r) [7; 6; 5; 4; 3; 2; 1; 0]) = r /\
    bits_value (map (Z.testbit b) [7; 6; 5; 4; 3; 2; 1; 0]) = b.
Proof.
  intros Hr Hg Hb. exists (encode_rgb r g b).
  split; [apply convert_step_color|].
  split; [apply encode_rgb_length|].
  split; [reflexivity|].
  repeat split; apply bits_value_u8; assumption.
Qed.

Lemma convert_step_encodes_grb_witness :
  is_u8 18 = true /\ is_u8 52 = true /\ is_u8 86 = true /\
  exists timing,
    convert_step (PList [PInt 18; PInt 52; PInt 86]) = Ok timing /\
    List.length timing = 48%nat /\
    timing =
      flat_map bit_pair (map (Z.testbit 52) [7; 6; 5; 4; 3; 2; 1; 0]) ++
      flat_map bit_pair (map (Z.testbit 18) [7; 6; 5; 4; 3; 2; 1; 0]) ++
      flat_map bit_pair (map (Z.testbit 86) [7; 6; 5; 4; 3; 2; 1; 0]) /\
    bits_value (map (Z.testbit 52) [7; 6; 5; 4; 3; 2; 1; 0]) = 52 /\
    bits_value (map (Z.testbit 18) [7; 6; 5; 4; 3; 2; 1; 0]) = 18 /\
    bits_value (map (Z.testbit 86) [7; 6; 5; 4; 3; 2; 1; 0]) = 86.
Proof.
  split; [reflexivity|]. split; [reflexivity|]. split; [reflexivity|].
  apply (convert_step_encodes_grb 18 52 86); reflexivity.
Defined.

(** C2.  For a sequence [cs] of well-formed colours of length L > 0 and a
    chain of N > 0 LEDs, [convert_seq] returns normally and the timing
    buffer found on the object afterwards is the concatenation, for LED
    i = 0 .. N-1 in this order, of the encoding of entry [i mod L] (what
    [convert_step] returns on it, 48 values); this stored buffer has
    N * 48 values.  The other attributes and the trace are as before. *)
Theorem convert_seq_builds_buffer (w : world) (cs : list pyval) :
  0 < led_count (self w) ->
  (0 < List.length cs)%nat ->
  forallb is_color cs = true ->
  seq_buffer (self w) = PList cs ->
  exists tb,
    convert_seq w =
      (Ok tt,
       mkWorld (mkChain (led_count (self w)) (gpio_pin (self w)) (Some tb)
                        (PList cs) (seq_buffer_len (self w)) (shift_pos (self w)))
               (trace w)) /\
    timing_buffer (self (snd (convert_seq w))) = Some tb /\
    tb = flat_map (fun i => encode (nth (i mod List.length cs) cs PNone))
                  (seq 0 (Z.to_nat (led_count (self w)))) /\
    Z.of_nat (List.length tb) = led_count (self w) * 48 /\
    (forall i, convert_step (nth (i mod List.length cs) cs PNone)
               = Ok (encode (nth (i mod List.length cs) cs PNone)) /\
               List.length (encode (nth (i mod List.length cs) cs PNone)) = 48%nat).
Proof.
  intros Hn HL Hall Hsb.
  assert (Hne : cs <> []) by (destruct cs; [cbn in HL; lia | discriminate]).
  pose proof (forallb_color_int cs Hall) as Hint.
  pose proof (convert_seq_run w cs Hsb Hne Hint) as Hrun.
  exists (build cs (Z.to_nat (led_count (self w)))).
  split; [rewrite Hrun; unfold with_timing_buffer; rewrite Hsb; reflexivity|].
  split; [rewrite Hrun; reflexivity|].
  split; [reflexivity|].
  split; [rewrite build_length by assumption; lia|].
  intros i.
  assert (Hc : is_int_color (nth (i mod List.length cs) cs PNone) = true).
  { apply forallb_nth; [assumption|]. apply Nat.mod_upper_bound. lia. }
  split; [apply convert_step_int_color | apply encode_length]; assumption.
Qed.

Lemma convert_seq_builds_buffer_witness :
  let cs := [color 255 0 0; color 0 255 0] in
  let w := mkWorld (mkChain 3 "P22" None (PList cs) 2 0) [] in
  (0 < led_count (self w) /\
   (0 < List.length cs)%nat /\
   forallb is_color cs = true /\
   seq_buffer (self w) = PList cs) /\
  timing_buffer (self w) = None /\
  timing_buffer (self (snd (convert_seq w)))
  = Some (encode_rgb 255 0 0 ++ encode_rgb 0 255 0 ++ encode_rgb 255 0 0) /\
  option_map (@List.length Z) (timing_buffer (self (snd (convert_seq w))))
  = Some 144%nat.
Proof.
  cbv zeta. split; [repeat split; reflexivity || (cbn; lia)|].
  split; [reflexivity|].
  destruct (convert_seq_builds_buffer
              (mkWorld (mkChain 3 "P22" None
                          (PList [color 255 0 0; color 0 255 0]) 2 0) [])
              [color 255 0 0; color 0 255 0]
              eq_refl ltac:(cbn; lia) eq_refl eq_refl)
    as (tb & _ & Hstored & Htb & _).
  rewrite Hstored, Htb. split; reflexivity.
Defined.



(** C8.  For a chain of N > 0 LEDs and a sequence of well-formed colours of
    length L > 0, the invariants [len(timing_buffer) = N * 48] and
    [0 <= shift_pos < L] hold after [set_seq], and every call of
    [shift_buffer] on a chain that satisfies them returns normally and
    leaves a chain that satisfies them. *)
Theorem buffer_invariants (n : Z) (cs : list pyval) :
  0 < n ->
  (0 < List.length cs)%nat ->
  forallb is_color cs = true ->
  (forall w, led_count (self w) = n ->
     exists w', set_seq (PList cs) w = (Ok tt, w') /\ chain_inv n cs (self w')) /\
  (forall w, chain_inv n cs (self w) ->
     exists w', shift_buffer w = (Ok tt, w') /\ chain_inv n cs (self w')).
Proof.
  intros Hn HL Hall.
  assert (Hne : cs <> []) by (destruct cs; [cbn in HL; lia | discriminate]).
  pose proof (forallb_color_int cs Hall) as Hint.
  split.
  - intros w <-. apply set_seq_inv; assumption.
  - intros w Hw. apply shift_buffer_inv; assumption.
Qed.

Lemma buffer_invariants_witness :
  let cs := [color 255 0 0; color 0 255 0; color 0 0 255] in
  (0 < 4 /\ (0 < List.length cs)%nat /\ forallb is_color cs = true) /\
  (forall w, led_count (self w) = 4 ->
     exists w', set_seq (PList cs) w = (Ok tt, w') /\ chain_inv 4 cs (self w')) /\
  (forall w, chain_inv 4 cs (self w) ->
     exists w', shift_buffer w = (Ok tt, w') /\ chain_inv 4 cs (self w')).
Proof.
  cbv zeta. split; [repeat split; reflexivity || (cbn; lia)|].
  apply (buffer_invariants 4 [color 255 0 0; color 0 255 0; color 0 0 255]);
    reflexivity || (cbn; lia).
Defined.

(** C9.  For N > 0 LEDs and a sequence of N well-formed colours (channels in
    0..255), decoding the buffer that [set_seq] builds (pairs read as bits,
    bits assembled most significant first into the green, red and blue
    bytes) gives back the sequence. *)
Theorem build_decode_roundtrip (w : world) (cs : list pyval) :
  0 < led_count (self w) ->
  led_count (self w) = Z.of_nat (List.length cs) ->
  forallb is_color cs = true ->
  exists w' tb,
    set_seq (PList cs) w = (Ok tt, w') /\
    timing_buffer (self w') = Some tb /\
    decode tb = Some cs.
Proof.
  intros Hn HL Hall.
  assert (Hne : cs <> []) by (destruct cs; [cbn in HL; lia | discriminate]).
  pose proof (forallb_color_int cs Hall) as Hint.
  do 2 eexists. split; [apply set_seq_run; assumption|].
  fields. split; [reflexivity|].
  rewrite HL, Nat2Z.id, build_exact. apply decode_encode, Hall.
Qed.

Lemma build_decode_roundtrip_witness :
  let cs := [color 255 0 0; color 18 52 86; color 0 128 7] in
  let w := chain_init 3 "P22" in
  (0 < led_count (self w) /\
   led_count (self w) = Z.of_nat (List.length cs) /\
   forallb is_color cs = true) /\
  exists w' tb,
    set_seq (PList cs) w = (Ok tt, w') /\
    timing_buffer (self w') = Some tb /\
    decode tb = Some cs.
Proof.
  cbv zeta. split; [repeat split; reflexivity|].
  apply (build_decode_roundtrip (chain_init 3 "P22")
           [color 255 0 0; color 18 52 86; color 0 128 7]); reflexivity.
Defined.

(** C10.  For every sequence of entries with three non-negative integer
    channels, every value of the timing buffer that [set_seq] /
    [convert_seq] stores, and of the buffer after any further calls of
    [shift_buffer] and [output_buffer], is one of T0H, T0L, T1H, T1L.  On a
    fresh chain this holds of whatever buffer is stored, also when a call
    raises; on a non-empty sequence every call returns normally and a
    buffer is present.  [output_buffer] sends the buffer followed by TRST
    and leaves the object, hence the stored buffer, as it was; TRST is not
    a bit-timing constant. *)
Theorem timing_buffer_only_bit_durations
        (n : Z) (pin : string) (cs : list pyval) (calls : list call) :
  forallb is_nonneg_color cs = true ->
  durations_ok
    (self (snd (bind (set_seq (PList cs)) (fun _ => do_calls calls)
                     (chain_init n pin)))) /\
  (cs <> [] ->
   forall w, exists w' tb,
     bind (set_seq (PList cs)) (fun _ => do_calls calls) w = (Ok tt, w') /\
     timing_buffer (self w') = Some tb /\
     Forall is_bit_duration tb) /\
  (forall w tb, timing_buffer (self w) = Some tb ->
     output_buffer w =
       (Ok tt, mkWorld (self w)
                       (trace w ++ [RMT_new 3 (gpio_pin (self w)) 0;
                                    RMT_pulses_send (tb ++ [TRST]) HIGH;
                                    RMT_deinit]))) /\
  ~ is_bit_duration TRST.
Proof.
  intros Hall. pose proof (forallb_nonneg_int cs Hall) as Hint.
  split; [apply set_seq_then_calls_durations; exact I|].
  split; [|split; [apply output_buffer_run|]].
  - intros Hne w. unfold bind. rewrite set_seq_run by assumption.
    set (w1 := mkWorld (loaded (self w) cs
                          (build cs (Z.to_nat (led_count (self w)))) 0)
                       (trace w)).
    destruct (do_calls_ready cs calls Hint w1) as (w' & Hrun & Hr);
      [apply loaded_ready; assumption|].
    assert (Hd : durations_ok (self (snd (do_calls calls w1)))).
    { apply do_calls_durations. unfold durations_ok, w1. fields.
      apply build_durations. }
    rewrite Hrun in *. cbn [snd] in Hd.
    destruct Hr as (_ & _ & Htb & _).
    unfold durations_ok in Hd.
    destruct (timing_buffer (self w')) as [tb|] eqn:Etb; [|congruence].
    exists w', tb. auto.
  - unfold is_bit_duration, TRST, T0H, T0L, T1H, T1L. lia.
Qed.

Lemma timing_buffer_only_bit_durations_witness :
  let cs := [color 300 0 7; color 0 1024 255] in
  let calls := [Shift; Output; Shift; Shift; Output] in
  forallb is_nonneg_color cs = true /\
  durations_ok
    (self (snd (bind (set_seq (PList cs)) (fun _ => do_calls calls)
                     (chain_init 3 "P22")))).
Proof.
  cbv zeta. split; [reflexivity|].
  apply (timing_buffer_only_bit_durations 3 "P22"
           [color 300 0 7; color 0 1024 255]
           [Shift; Output; Shift; Shift; Output]).
  reflexivity.
Defined.

(** C7, as the code has it.  On a chain without a timing buffer (no
    [set_seq] has succeeded), [shift_buffer] and [output_buffer] are silent
    no-ops: they return normally, raise nothing, print nothing, send
    nothing, and leave the state of the chain unchanged. *)
Theorem no_buffer_calls_are_silent_noops (w : world) :
  timing_buffer (self w) = None ->
  shift_buffer w = (Ok tt, w) /\ output_buffer w = (Ok tt, w).
Proof.
  intros Htb. unfold shift_buffer, output_buffer, bind, get.
  rewrite Htb. split; reflexivity.
Qed.

Lemma no_buffer_calls_are_silent_noops_witness :
  timing_buffer (self (chain_init 4 "P22")) = None /\
  shift_buffer (chain_init 4 "P22") = (Ok tt, chain_init 4 "P22") /\
  output_buffer (chain_init 4 "P22") = (Ok tt, chain_init 4 "P22").
Proof.
  split; [reflexivity|].
  apply (no_buffer_calls_are_silent_noops (chain_init 4 "P22")). reflexivity.
Defined.

(** C7 as stated fails: on a fresh chain neither call fails, and neither
    reports anything (the trace is unchanged). *)
Lemma no_buffer_calls_do_not_fail :
  raised (fst (shift_buffer (chain_init 4 "P22"))) = false /\
  raised (fst (output_buffer (chain_init 4 "P22"))) = false /\
  trace (snd (shift_buffer (chain_init 4 "P22"))) = trace (chain_init 4 "P22") /\
  trace (snd (output_buffer (chain_init 4 "P22"))) = trace (chain_init 4 "P22").
Proof. repeat split. Qed.

(** C4 fails on the code.  With 2 LEDs and the sequence
    [[255,0,0],[0,255,0]] (L = 2), the buffer after [set_seq] shows entries
    0, 1; after one shift it shows entries 1, 1 (the appended entry is the
    one at [shift_pos], not the one that follows the last LED); after
    L = 2 shifts it shows entries 1, 0, which is not the buffer before the
    first shift. *)
Theorem shift_period_broken :
  let a := color 255 0 0 in
  let b := color 0 255 0 in
  let w0 := snd (set_seq (PList [a; b]) (chain_init 2 "P22")) in
  timing_buffer (self w0) = Some (encode a ++ encode b) /\
  shifts 1 w0 =
    (Ok tt, mkWorld (loaded (self w0) [a; b] (encode b ++ encode b) 1) (trace w0)) /\
  shifts 2 w0 =
    (Ok tt, mkWorld (loaded (self w0) [a; b] (encode b ++ encode a) 0) (trace w0)) /\
  timing_buffer (self (snd (shifts 2 w0))) <> timing_buffer (self w0).
Proof.
  cbv zeta. split; [reflexivity|]. split; [reflexivity|]. split; [reflexivity|].
  vm_compute. discriminate.
Qed.

(** C5 fails on the code.  [set_seq([])] on a chain of one LED raises
    ZeroDivisionError from the modulo of [convert_seq]; nothing is printed;
    the empty sequence is stored.  When a buffer was there, it stays, next
    to the empty sequence. *)
Theorem set_seq_empty_raises :
  let w := chain_init 1 "P22" in
  let w1 := snd (set_seq (PList [color 255 0 0]) w) in
  set_seq (PList []) w =
    (Raise ZeroDivisionError,
     mkWorld (mkChain 1 "P22" None (PList []) 0 0) (trace w)) /\
  set_seq (PList []) w1 =
    (Raise ZeroDivisionError,
     mkWorld (mkChain 1 "P22" (Some (encode_rgb 255 0 0)) (PList []) 0 0)
             (trace w)).
Proof. cbv zeta. split; reflexivity. Qed.

(** C6 fails on the code.  An entry of four values is reported as ignored
    and then encoded all the same, as if it were its first three values; an
    entry of two values and an entry that is an integer make [set_seq]
    raise. *)
Theorem malformed_entry_is_encoded :
  let w := chain_init 1 "P22" in
  set_seq (PList [PList [PInt 1; PInt 2; PInt 3; PInt 4]]) w =
    (Ok tt,
     mkWorld (loaded (self w) [PList [PInt 1; PInt 2; PInt 3; PInt 4]]
                     (encode_rgb 1 2 3) 0)
             (trace w ++ [Print msg_not_3_elements])) /\
  fst (set_seq (PList [PList [PInt 1; PInt 2]]) w) = Raise IndexError /\
  trace (snd (set_seq (PList [PList [PInt 1; PInt 2]]) w))
    = trace w ++ [Print msg_not_3_elements] /\
  fst (set_seq (PList [PInt 5]) w) = Raise TypeError /\
  trace (snd (set_seq (PList [PInt 5]) w)) = trace w ++ [Print msg_not_a_list].
Proof. cbv zeta. repeat split. Qed.

(* ================================================================== *)
(** * Further properties of the driver *)
(* ================================================================== *)

(** ** [set_seq] on an argument that is not a list *)

(** X2.  When the argument of [set_seq] is not a list, the call returns
    normally, forgets the sequence and the timing buffer, resets
    [shift_pos] and [seq_buffer_len] to 0 whatever the state was, prints
    the two help lines and keeps [led_count] and [gpio_pin]. *)
Theorem set_seq_not_a_list_resets (v : pyval) (w : world) :
  isinstance_list v = false ->
  set_seq v w =
  (Ok tt,
   mkWorld (mkChain (led_count (self w)) (gpio_pin (self w)) None PNone 0 0)
           (trace w ++ [Print "Argument led_seq is not a list! ex.:";
                        Print help_example])).
Proof.
  intros Hv. unfold set_seq, _printHelp. rewrite Hv.
  unfold bind, set_seq_buffer, set_timing_buffer, set_shift_pos,
    set_seq_buffer_len, print, emit, modify.
  fields. rewrite <- app_assoc. reflexivity.
Qed.

Lemma set_seq_not_a_list_resets_witness :
  let w := mkWorld (mkChain 2 "P22" (Some (encode_rgb 1 2 3 ++ encode_rgb 1 2 3))
                            (PList [color 1 2 3]) 1 0) [] in
  isinstance_list (PTuple [color 1 2 3]) = false /\
  set_seq (PTuple [color 1 2 3]) w =
  (Ok tt,
   mkWorld (mkChain 2 "P22" None PNone 0 0)
           [Print "Argument led_seq is not a list! ex.:"; Print help_example]).
Proof.
  cbv zeta. split; [reflexivity|].
  exact (set_seq_not_a_list_resets
           (PTuple [color 1 2 3])
           (mkWorld (mkChain 2 "P22" (Some (encode_rgb 1 2 3 ++ encode_rgb 1 2 3))
                             (PList [color 1 2 3]) 1 0) [])
           eq_refl).
Defined.

(** ** Which entries [convert_step] accepts *)

Lemma leading_rgb_getitem (v : pyval) (r g b : Z) :
  leading_rgb v = Some (r, g, b) ->
  getitem v 0 = Ok (PInt r) /\ getitem v 1 = Ok (PInt g) /\
  getitem v 2 = Ok (PInt b).
Proof.
  intros H.
  assert (Hl : exists rest,
             v = PList (PInt r :: PInt g :: PInt b :: rest) \/
             v = PTuple (PInt r :: PInt g :: PInt b :: rest)).
  { destruct v as [| | |l|l]; try discriminate;
      destruct l as [|[| x | | |] [|[| y | | |] [|[| z | | |] rest]]];
      try discriminate; injection H as -> -> ->; eauto. }
  destruct Hl as (rest & [-> | ->]); cbn [getitem];
    repeat split;
    match goal with
    | |- index ?l ?i = _ =>
        rewrite (index_nth l i PNone) by (cbn [List.length]; lia); reflexivity
    end.
Qed.

Lemma convert_step_leading (v : pyval) (r g b : Z) :
  leading_rgb v = Some (r, g, b) -> convert_step v = Ok (encode_rgb r g b).
Proof.
  intros H. destruct (leading_rgb_getitem v r g b H) as (H0 & H1 & H2).
  unfold convert_step, encode_rgb.
  rewrite (channel_loop v 1 g) by (assumption || apply bit_positions_nonneg).
  cbn [rbind].
  rewrite (channel_loop v 0 r) by (assumption || apply bit_positions_nonneg).
  cbn [rbind].
  rewrite (channel_loop v 2 b) by (assumption || apply bit_positions_nonneg).
  cbn [rbind].
  rewrite !encode_channel_flat_map, <- !app_assoc. reflexivity.
Qed.

(** A channel loop that ends normally has read an integer. *)
Lemma channel_loop_reads_int (led : pyval) (idx j : Z) (js acc t : list Z) :
  for_in (j :: js) acc (fun j timing =>
    (x <- getitem led idx ;;
     m <- and_ x (PInt (Z.shiftl 1 j)) ;;
     if ne_int m 0 then Ok (timing ++ T1) else Ok (timing ++ T0))%result)
  = Ok t ->
  exists x, getitem led idx = Ok (PInt x).
Proof.
  cbn [for_in]. destruct (getitem led idx) as [x|e]; cbn [rbind]; [|discriminate].
  destruct x as [|x| | |]; cbn [and_ rbind]; try discriminate.
  intros _. exists x. reflexivity.
Qed.

Lemma index_short {A} (l : list A) (i : Z) (x : A) :
  index l i = Ok x -> 0 <= i -> i < Z.of_nat (List.length l) /\
                                nth_error l (Z.to_nat i) = Some x.
Proof.
  unfold index. intros H Hi.
  destruct (Z.ltb_spec i 0) as [?|_]; [lia|].
  destruct (Z.ltb_spec i 0) as [?|_]; [lia|].
  destruct (Z.leb_spec (Z.of_nat (List.length l)) i) as [?|Hlt];
    cbn [orb] in H; [discriminate|].
  destruct (nth_error l (Z.to_nat i)) as [y|]; [|discriminate].
  injection H as ->. split; [assumption | reflexivity].
Qed.

Lemma getitem_leading (v : pyval) (r g b : Z) :
  getitem v 0 = Ok (PInt r) -> getitem v 1 = Ok (PInt g) ->
  getitem v 2 = Ok (PInt b) ->
  leading_rgb v = Some (r, g, b).
Proof.
  intros H0 H1 H2.
  destruct v as [| |s|l|l]; cbn [getitem] in *; try discriminate.
  - destruct (index (list_ascii_of_string s) 0); discriminate.
  - apply index_short in H0, H1, H2; try lia.
    destruct H0 as [_ H0], H1 as [_ H1], H2 as [_ H2].
    destruct l as [|x [|y [|z rest]]]; try discriminate.
    cbn in H0, H1, H2. injection H0 as ->. injection H1 as ->. injection H2 as ->.
    reflexivity.
  - apply index_short in H0, H1, H2; try lia.
    destruct H0 as [_ H0], H1 as [_ H1], H2 as [_ H2].
    destruct l as [|x [|y [|z rest]]]; try discriminate.
    cbn in H0, H1, H2. injection H0 as ->. injection H1 as ->. injection H2 as ->.
    reflexivity.
Qed.

Lemma convert_step_ok_inv (v : pyval) (t : list Z) :
  convert_step v = Ok t ->
  exists r g b, leading_rgb v = Some (r, g, b) /\ t = encode_rgb r g b.
Proof.
  intros H. pose proof H as H'. unfold convert_step in H'.
  change (range 7 (-1) (-1)) with [7; 6; 5; 4; 3; 2; 1; 0] in H'.
  match type of H' with
  | rbind ?c _ = _ => destruct c as [t1|e] eqn:E1; cbn [rbind] in H'; [|discriminate]
  end.
  match type of H' with
  | rbind ?c _ = _ => destruct c as [t2|e] eqn:E2; cbn [rbind] in H'; [|discriminate]
  end.
  match type of H' with
  | rbind ?c _ = _ => destruct c as [t3|e] eqn:E3; cbn [rbind] in H'; [|discriminate]
  end.
  apply channel_loop_reads_int in E1, E2, E3.
  destruct E1 as [g Hg], E2 as [r Hr], E3 as [b Hb].
  exists r, g, b.
  pose proof (getitem_leading v r g b Hr Hg Hb) as Hl.
  split; [assumption|].
  rewrite (convert_step_leading v r g b Hl) in H. congruence.
Qed.

Lemma convert_step_ok_length (v : pyval) (t : list Z) :
  convert_step v = Ok t -> List.length t = 48%nat.
Proof.
  intros H. destruct (convert_step_ok_inv v t H) as (r & g & b & _ & ->).
  apply encode_rgb_length.
Qed.






(** ** Channels outside 0..255 *)

Lemma encode_channel_mod (x : Z) : encode_channel (x mod 256) = encode_channel x.
Proof.
  unfold encode_channel, bits_msb_first. cbn [map].
  change 256 with (2 ^ 8).
  rewrite !Z.mod_pow2_bits_low by lia. reflexivity.
Qed.

(** X4.  [convert_step] reads the 8 low bits of each channel only: any
    integers, negative or above 255, are encoded as their residues modulo
    256, and the call does not raise. *)
Theorem convert_step_low_bits (r g b : Z) :
  convert_step (PList [PInt r; PInt g; PInt b])
  = convert_step (PList [PInt (r mod 256); PInt (g mod 256); PInt (b mod 256)]) /\
  convert_step (PList [PInt r; PInt g; PInt b])
  = Ok (encode_rgb (r mod 256) (g mod 256) (b mod 256)) /\
  is_color (PList [PInt (r mod 256); PInt (g mod 256); PInt (b mod 256)]) = true.
Proof.
  fold (color r g b). fold (color (r mod 256) (g mod 256) (b mod 256)).
  rewrite !convert_step_color. unfold encode_rgb.
  rewrite !encode_channel_mod.
  repeat split.
  unfold color, is_color, is_u8.
  pose proof (Z.mod_pos_bound r 256). pose proof (Z.mod_pos_bound g 256).
  pose proof (Z.mod_pos_bound b 256).
  repeat (apply andb_true_intro; split); apply Z.leb_le; lia.
Qed.

(** ** What the LEDs show once the initial buffer is shifted out *)

(** X5.  On a chain of N > 0 LEDs with a non-empty sequence of
    three-integer entries of length L, after [set_seq] and k >= N calls of
    [shift_buffer] all calls have returned normally, [shift_pos] is
    [k mod L], and LED i (0 <= i < N) shows entry [(k - N + 1 + i) mod L]:
    the buffer is a window of N consecutive entries of the cyclic sequence
    whose last LED shows the entry at [shift_pos]. *)
Theorem steady_state_window (cs : list pyval) (w : world) (k : nat) :
  0 < led_count (self w) ->
  (Z.to_nat (led_count (self w)) <= k)%nat ->
  cs <> [] ->
  forallb is_int_color cs = true ->
  exists w',
    bind (set_seq (PList cs)) (fun _ => shifts k) w = (Ok tt, w') /\
    shift_pos (self w') = Z.of_nat k mod Z.of_nat (List.length cs) /\
    timing_buffer (self w') =
      Some (flat_map
              (fun i => encode (nth ((k - Z.to_nat (led_count (self w)) + 1 + i)
                                       mod List.length cs) cs PNone))
              (seq 0 (Z.to_nat (led_count (self w))))) /\
    nth ((k - Z.to_nat (led_count (self w)) + 1
          + (Z.to_nat (led_count (self w)) - 1)) mod List.length cs) cs PNone
    = nth (Z.to_nat (shift_pos (self w'))) cs PNone.
Proof.
  intros Hn Hk Hne Hall.
  eexists. split; [apply shifts_steady_state; assumption|]. fields.
  split; [reflexivity|]. split.
  - f_equal. unfold window.
    replace (1 + k - Z.to_nat (led_count (self w)))%nat
      with (0 + (k - Z.to_nat (led_count (self w)) + 1))%nat by lia.
    rewrite seq_add_shift.
    rewrite flat_map_concat_map, map_map, <- flat_map_concat_map.
    apply flat_map_ext. intros i. rewrite entry_at_of_nat.
    do 3 f_equal. lia.
  - replace (k - Z.to_nat (led_count (self w)) + 1
             + (Z.to_nat (led_count (self w)) - 1))%nat with k by lia.
    rewrite <- entry_at_of_nat. reflexivity.
Qed.

Lemma steady_state_window_witness :
  let cs := [color 255 0 0; color 0 255 0; color 0 0 255] in
  let w := chain_init 2 "P22" in
  (0 < led_count (self w) /\ (Z.to_nat (led_count (self w)) <= 4)%nat /\
   cs <> [] /\ forallb is_int_color cs = true) /\
  exists w',
    bind (set_seq (PList cs)) (fun _ => shifts 4) w = (Ok tt, w') /\
    shift_pos (self w') = 1 /\
    timing_buffer (self w') = Some (encode_rgb 255 0 0 ++ encode_rgb 0 255 0).
Proof.
  cbv zeta.
  split; [repeat split; discriminate || reflexivity || (cbn; lia)|].
  destruct (steady_state_window
              [color 255 0 0; color 0 255 0; color 0 0 255]
              (chain_init 2 "P22") 4 eq_refl
              ltac:(cbn; lia) ltac:(discriminate) eq_refl)
    as (w' & Hrun & Hpos & Hbuf & _).
  exists w'. split; [exact Hrun|]. split; [exact Hpos|]. exact Hbuf.
Defined.

(** ** What a shift touches *)

Lemma no_buffer_is_noop (w : world) :
  timing_buffer (self w) = None ->
  shift_buffer w = (Ok tt, w) /\ output_buffer w = (Ok tt, w).
Proof.
  intros Htb. unfold shift_buffer, output_buffer, bind, get.
  rewrite Htb. split; reflexivity.
Qed.

(** One shift on a chain with a timing buffer, by cases on the entry at
    the new shift position. *)
Lemma shift_buffer_cases (w : world) (tb : list Z) :
  timing_buffer (self w) = Some tb ->
  let p := if seq_buffer_len (self w) <=? shift_pos (self w) + 1
           then 0 else shift_pos (self w) + 1 in
  let w1 := mkWorld (with_shift_pos p (self w)) (trace w) in
  shift_buffer w =
  match getitem (seq_buffer (self w)) p with
  | Raise e => (Raise e, w1)
  | Ok led =>
      match convert_step led with
      | Raise e => (Raise e, w1)
      | Ok t => (Ok tt, mkWorld (with_timing_buffer (Some (skipn 48 tb ++ t))
                                                    (self w1))
                                (trace w))
      end
  end.
Proof.
  intros Htb. cbv zeta. unfold shift_buffer. unfold bind at 1, get at 1.
  rewrite Htb.
  unfold bind, get, set_shift_pos, set_timing_buffer, modify, lift, ret.
  fields.
  destruct (seq_buffer_len (self w) <=? shift_pos (self w) + 1); fields;
    rewrite Htb; cbn [slice_from];
    match goal with
    | |- context [getitem ?sb ?p] => destruct (getitem sb p) as [led|e]
    end;
    try reflexivity;
    destruct (convert_step led) as [t|e]; reflexivity.
Qed.

(** X13.  Whatever the state and whether it raises or not, [shift_buffer]
    never changes the sequence, its stored length, [led_count],
    [gpio_pin] or the trace; without a timing buffer it changes nothing;
    with one, [shift_pos] becomes 0 if [seq_buffer_len <= shift_pos + 1]
    and [shift_pos + 1] otherwise, also when the call then raises, in which
    case the timing buffer is the one before the call. *)
Theorem shift_buffer_frame (w : world) :
  seq_buffer (self (snd (shift_buffer w))) = seq_buffer (self w) /\
  seq_buffer_len (self (snd (shift_buffer w))) = seq_buffer_len (self w) /\
  led_count (self (snd (shift_buffer w))) = led_count (self w) /\
  gpio_pin (self (snd (shift_buffer w))) = gpio_pin (self w) /\
  trace (snd (shift_buffer w)) = trace w /\
  shift_pos (self (snd (shift_buffer w))) =
    match timing_buffer (self w) with
    | None => shift_pos (self w)
    | Some _ => if seq_buffer_len (self w) <=? shift_pos (self w) + 1
                then 0 else shift_pos (self w) + 1
    end /\
  (raised (fst (shift_buffer w)) = true ->
   timing_buffer (self (snd (shift_buffer w))) = timing_buffer (self w)).
Proof.
  destruct (timing_buffer (self w)) as [tb|] eqn:Htb.
  - rewrite (shift_buffer_cases w tb Htb). cbv zeta.
    destruct (getitem _ _) as [led|e]; [destruct (convert_step led) as [t|e]|];
      cbn [fst snd raised]; fields; rewrite ?Htb;
      repeat split; try discriminate.
  - rewrite (proj1 (no_buffer_is_noop w Htb)). cbn [fst snd raised].
    rewrite Htb. repeat split; try discriminate.
Qed.

(** ** The empty list *)

(** X7.  On a chain with [led_count > 0], [set_seq([])] raises
    ZeroDivisionError after it has stored the empty list, length 0 and
    [shift_pos] 0; nothing is printed and the timing buffer is the one
    before the call.  If there was a timing buffer, a following
    [shift_buffer] raises IndexError and leaves this state as it is. *)
Theorem set_seq_empty_list_keeps_old_buffer (w : world) :
  0 < led_count (self w) ->
  let w' := mkWorld (mkChain (led_count (self w)) (gpio_pin (self w))
                             (timing_buffer (self w)) (PList []) 0 0)
                    (trace w) in
  set_seq (PList []) w = (Raise ZeroDivisionError, w') /\
  (timing_buffer (self w) <> None -> shift_buffer w' = (Raise IndexError, w')).
Proof.
  intros Hn. cbv zeta. split.
  - unfold set_seq. cbn [isinstance_list].
    unfold bind at 1, set_seq_buffer, modify at 1.
    unfold bind at 1, set_shift_pos, modify at 1.
    unfold bind at 1, lift at 1. cbn [len].
    unfold bind at 1, set_seq_buffer_len, modify at 1.
    unfold convert_seq, bind, get, lift. fields. cbn [len List.length Z.of_nat].
    rewrite range_0_n.
    destruct (Z.to_nat (led_count (self w))) as [|n] eqn:E; [lia|].
    reflexivity.
  - intros Hb. destruct (timing_buffer (self w)) as [tb|]; [|congruence].
    reflexivity.
Qed.

Lemma set_seq_empty_list_keeps_old_buffer_witness :
  let w := mkWorld (mkChain 1 "P22" (Some (encode_rgb 1 2 3))
                            (PList [color 1 2 3]) 1 0) [] in
  let w' := mkWorld (mkChain 1 "P22" (Some (encode_rgb 1 2 3)) (PList []) 0 0) [] in
  0 < led_count (self w) /\
  set_seq (PList []) w = (Raise ZeroDivisionError, w') /\
  (timing_buffer (self w) <> None -> shift_buffer w' = (Raise IndexError, w')).
Proof.
  cbv zeta. split; [reflexivity|].
  exact (set_seq_empty_list_keeps_old_buffer
           (mkWorld (mkChain 1 "P22" (Some (encode_rgb 1 2 3))
                             (PList [color 1 2 3]) 1 0) [])
           eq_refl).
Defined.

(** ** A chain without LEDs *)

(** X6.  On a chain with [led_count <= 0], [set_seq] accepts every list,
    the empty one and lists of malformed entries included: the loop of
    [convert_seq] does not run, nothing is printed or raised, and the timing
    buffer is the empty tuple. *)
Theorem set_seq_no_leds (l : list pyval) (w : world) :
  led_count (self w) <= 0 ->
  set_seq (PList l) w =
  (Ok tt, mkWorld (mkChain (led_count (self w)) (gpio_pin (self w))
                           (Some []) (PList l) (Z.of_nat (List.length l)) 0)
                  (trace w)).
Proof.
  intros Hn. unfold set_seq. cbn [isinstance_list].
  unfold bind at 1, set_seq_buffer, modify at 1.
  unfold bind at 1, set_shift_pos, modify at 1.
  unfold bind at 1, lift at 1. cbn [len].
  unfold bind at 1, set_seq_buffer_len, modify at 1.
  unfold convert_seq, bind, get, lift. fields. cbn [len].
  rewrite range_0_n.
  replace (Z.to_nat (led_count (self w))) with 0%nat by lia.
  reflexivity.
Qed.

Lemma set_seq_no_leds_witness :
  led_count (self (chain_init 0 "P22")) <= 0 /\
  set_seq (PList [PInt 5; PNone]) (chain_init 0 "P22") =
  (Ok tt, mkWorld (mkChain 0 "P22" (Some []) (PList [PInt 5; PNone]) 2 0)
                  [RMT_new 3 "P22" 0]).
Proof.
  split; [cbn; lia|].
  exact (set_seq_no_leds [PInt 5; PNone] (chain_init 0 "P22")
                         ltac:(cbn; lia)).
Defined.

(** ** [set_seq] on any list *)

Lemma for_inM_length {X} (c : chain) (body : X -> list Z -> M (list Z))
      (xs : list X) :
  (forall x acc w, self w = c ->
     self (snd (body x acc w)) = c /\
     forall a, fst (body x acc w) = Ok a ->
               List.length a = (List.length acc + 48)%nat) ->
  forall acc w, self w = c ->
    self (snd (for_inM xs acc body w)) = c /\
    forall a, fst (for_inM xs acc body w) = Ok a ->
              List.length a = (List.length acc + List.length xs * 48)%nat.
Proof.
  intros Hbody. induction xs as [|x xs IH]; intros acc w Hw; cbn [for_inM].
  - split; [assumption|]. intros a [= <-]. cbn. lia.
  - unfold bind. destruct (Hbody x acc w Hw) as [Hs Hq].
    destruct (body x acc w) as [[acc'|e] w']; cbn [fst snd] in *.
    + destruct (IH acc' w' Hs) as [Hs' Hq']. split; [assumption|].
      intros a Ha. rewrite (Hq' a Ha), (Hq acc' eq_refl). cbn [List.length]. lia.
    + split; [assumption | discriminate].
Qed.

Lemma set_seq_list_shape (l : list pyval) (w : world) :
  forall r w',
    set_seq (PList l) w = (r, w') ->
    seq_buffer (self w') = PList l /\
    seq_buffer_len (self w') = Z.of_nat (List.length l) /\
    shift_pos (self w') = 0 /\
    led_count (self w') = led_count (self w) /\
    gpio_pin (self w') = gpio_pin (self w) /\
    (raised r = true -> timing_buffer (self w') = timing_buffer (self w)) /\
    (raised r = false ->
     exists tb, timing_buffer (self w') = Some tb /\
                List.length tb = (Z.to_nat (led_count (self w)) * 48)%nat).
Proof.
  intros r w'. unfold set_seq. cbn [isinstance_list].
  unfold bind at 1, set_seq_buffer, modify at 1.
  unfold bind at 1, set_shift_pos, modify at 1.
  unfold bind at 1, lift at 1. cbn [len].
  unfold bind at 1, set_seq_buffer_len, modify at 1.
  set (c := with_seq_buffer_len (Z.of_nat (List.length l))
              (with_shift_pos 0 (with_seq_buffer (PList l) (self w)))).
  fields.
  unfold convert_seq. unfold bind at 1, get at 1. fields.
  unfold bind at 1, lift at 1.
  replace (seq_buffer c) with (PList l) by reflexivity. cbn [len].
  unfold bind at 1, get at 1. unfold bind at 1.
  replace (led_count c) with (led_count (self w)) by reflexivity.
  match goal with
  | |- context [for_inM ?xs ?a ?body ?w0] =>
      assert (HB : forall x acc w1, self w1 = c ->
                 self (snd (body x acc w1)) = c /\
                 forall t, fst (body x acc w1) = Ok t ->
                           List.length t = (List.length acc + 48)%nat);
      [ | destruct (for_inM_length c body xs HB a w0 eq_refl) as [Hs Hq];
          assert (Hxs : List.length xs = Z.to_nat (led_count (self w)))
            by (rewrite range_0_n, length_map, length_seq; reflexivity);
          destruct (for_inM xs a body w0) as [[t|e] w1];
          cbn [fst snd] in Hs, Hq ]
  end.
  - intros i acc w1 Hw1.
    unfold bind, get, lift, print, emit, ret.
    repeat (case_match; cbn [fst snd self]);
      (split; [assumption | try discriminate]).
    all: intros t0 [= <-]; rewrite length_app; f_equal;
      eapply convert_step_ok_length; eassumption.
  - unfold set_timing_buffer, modify. intros [= <- <-]. cbn [raised]. fields.
    rewrite Hs. unfold c. fields.
    repeat (split; [reflexivity|]). split; [discriminate|].
    intros _. exists t. split; [reflexivity|].
    rewrite (Hq t eq_refl), Hxs. cbn [List.length]. lia.
  - intros [= <- <-]. cbn [raised]. rewrite Hs. unfold c. fields.
    repeat (split; [reflexivity|]). discriminate.
Qed.

(** X8.  For every list [l], whatever its entries and whether the call
    raises or not, [set_seq(l)] leaves [seq_buffer] = [l],
    [seq_buffer_len] = [len(l)], [shift_pos] = 0, and [led_count] and
    [gpio_pin] as they were.  When it raises, the timing buffer is the one
    before the call (it no longer belongs to the stored sequence); when it
    returns normally, the timing buffer has exactly 48 values per LED. *)
Theorem set_seq_list_outcomes (l : list pyval) (w : world) :
  seq_buffer (self (snd (set_seq (PList l) w))) = PList l /\
  seq_buffer_len (self (snd (set_seq (PList l) w))) = Z.of_nat (List.length l) /\
  shift_pos (self (snd (set_seq (PList l) w))) = 0 /\
  led_count (self (snd (set_seq (PList l) w))) = led_count (self w) /\
  gpio_pin (self (snd (set_seq (PList l) w))) = gpio_pin (self w) /\
  (raised (fst (set_seq (PList l) w)) = true ->
   timing_buffer (self (snd (set_seq (PList l) w))) = timing_buffer (self w)) /\
  (raised (fst (set_seq (PList l) w)) = false ->
   exists tb,
     timing_buffer (self (snd (set_seq (PList l) w))) = Some tb /\
     List.length tb = (Z.to_nat (led_count (self w)) * 48)%nat).
Proof.
  apply set_seq_list_shape. apply surjective_pairing.
Qed.

(** ** The checks of [convert_seq] report and go on *)

Lemma for_inM_appends_trace {X A} (f : X -> list A) (g : X -> list event)
      (c : chain) (body : X -> list A -> M (list A)) (xs : list X) :
  (forall x acc w, self w = c ->
     body x acc w = (Ok (acc ++ f x), mkWorld c (trace w ++ g x))) ->
  forall acc w, self w = c ->
    for_inM xs acc body w
    = (Ok (acc ++ flat_map f xs), mkWorld c (trace w ++ flat_map g xs)).
Proof.
  intros Hbody. induction xs as [|x xs IH]; intros acc w Hw; cbn [for_inM flat_map].
  - rewrite !app_nil_r. destruct w as [c' tr]. cbn in Hw. subst c'. reflexivity.
  - unfold bind. rewrite Hbody by assumption. rewrite IH by reflexivity.
    cbn [trace]. rewrite <- !app_assoc. reflexivity.
Qed.

Lemma accepted_inv (v : pyval) :
  accepted v = true ->
  exists l, len v = Ok l /\ convert_step v = Ok (encode_leading v).
Proof.
  unfold accepted, encode_leading. intros H.
  destruct (leading_rgb v) as [[[r g] b]|] eqn:E; [|discriminate].
  split with (x := match len v with Ok l => l | Raise _ => 0 end).
  split; [|apply convert_step_leading, E].
  destruct v as [| | |l|l]; try discriminate; reflexivity.
Qed.

(** X9.  On a non-empty sequence whose entries are lists or tuples that
    start with three integers, [set_seq] returns normally and encodes, for
    every LED, the first three items of its entry: an entry that the two
    checks of [convert_seq] report (not a list, not 3 elements) is encoded
    all the same, and the trace grows by exactly these reports, LED by
    LED. *)
Theorem set_seq_checks_do_not_skip (cs : list pyval) (w : world) :
  cs <> [] ->
  forallb accepted cs = true ->
  set_seq (PList cs) w =
  (Ok tt,
   mkWorld (loaded (self w) cs
              (flat_map (fun i => encode_leading (nth (i mod List.length cs) cs PNone))
                        (seq 0 (Z.to_nat (led_count (self w))))) 0)
           (trace w ++
            flat_map (fun i => entry_messages (nth (i mod List.length cs) cs PNone))
                     (seq 0 (Z.to_nat (led_count (self w)))))).
Proof.
  intros Hne Hall.
  assert (HL : 0 < Z.of_nat (List.length cs)) by (destruct cs; [congruence|cbn; lia]).
  unfold set_seq. cbn [isinstance_list].
  unfold bind at 1, set_seq_buffer, modify at 1.
  unfold bind at 1, set_shift_pos, modify at 1.
  unfold bind at 1, lift at 1. cbn [len].
  unfold bind at 1, set_seq_buffer_len, modify at 1.
  set (c := with_seq_buffer_len (Z.of_nat (List.length cs))
              (with_shift_pos 0 (with_seq_buffer (PList cs) (self w)))).
  fields.
  unfold convert_seq. unfold bind at 1, get at 1. fields.
  unfold bind at 1, lift at 1.
  replace (seq_buffer c) with (PList cs) by reflexivity. cbn [len].
  unfold bind at 1, get at 1. unfold bind at 1.
  rewrite (for_inM_appends_trace
             (fun i => encode_leading (entry_at cs i))
             (fun i => entry_messages (entry_at cs i)) c).
  - unfold set_timing_buffer, modify. fields. cbn [app].
    replace (led_count c) with (led_count (self w)) by reflexivity.
    rewrite range_0_n, !flat_map_concat_map, !map_map, <- !flat_map_concat_map.
    unfold loaded, with_timing_buffer, c. fields.
    do 2 f_equal.
    + do 2 f_equal. apply flat_map_ext. intros k. rewrite entry_at_of_nat. reflexivity.
    + f_equal. apply flat_map_ext. intros k. rewrite entry_at_of_nat. reflexivity.
  - intros i acc w1 Hw1. unfold bind, get, lift, mod_. rewrite Hw1.
    replace (seq_buffer c) with (PList cs) by reflexivity.
    destruct (Z.eqb_spec (Z.of_nat (List.length cs)) 0) as [?|_]; [lia|].
    cbn [getitem].
    rewrite (index_nth cs _ PNone) by (apply Z.mod_pos_bound; assumption).
    fold (entry_at cs i).
    assert (Ha : accepted (entry_at cs i) = true).
    { apply forallb_nth; [assumption|].
      pose proof (Z.mod_pos_bound i (Z.of_nat (List.length cs)) HL). lia. }
    destruct (accepted_inv _ Ha) as (n & Hn & Hc).
    unfold entry_messages. rewrite Hn, Hc.
    destruct (isinstance_list (entry_at cs i)), (n =? 3);
      cbn [negb print emit ret self trace app];
      rewrite <- ?Hw1, ?app_nil_r, <- ?app_assoc;
      destruct w1; reflexivity.
  - reflexivity.
Qed.

Lemma set_seq_checks_do_not_skip_witness :
  let cs := [PTuple [PInt 1; PInt 2; PInt 3]; PList [PInt 4; PInt 5; PInt 6; PInt 7]] in
  let w := mkWorld (mkChain 3 "P22" None PNone 0 0) [] in
  (cs <> [] /\ forallb accepted cs = true) /\
  set_seq (PList cs) w =
  (Ok tt,
   mkWorld (loaded (self w) cs
              (encode_rgb 1 2 3 ++ encode_rgb 4 5 6 ++ encode_rgb 1 2 3) 0)
           [Print msg_not_a_list; Print msg_not_3_elements; Print msg_not_a_list]).
Proof.
  cbv zeta. split; [split; [discriminate | reflexivity]|].
  refine (eq_trans
            (set_seq_checks_do_not_skip
               [PTuple [PInt 1; PInt 2; PInt 3];
                PList [PInt 4; PInt 5; PInt 6; PInt 7]]
               (mkWorld (mkChain 3 "P22" None PNone 0 0) [])
               ltac:(discriminate) eq_refl) _).
  reflexivity.
Defined.

(** ** What is sent to the peripheral *)

Lemma shift_keeps_frames_inv (n : Z) (cs : list pyval) (pin : string) (w : world) :
  0 < n ->
  forallb is_int_color cs = true ->
  frames_inv n cs pin (self w) ->
  exists w', shift_buffer w = (Ok tt, w') /\ frames_inv n cs pin (self w') /\
             trace w' = trace w.
Proof.
  intros Hn Hall (Hinv & Hd & Hpin).
  pose proof (shift_buffer_durations w Hd) as Hd'.
  pose proof (shift_buffer_frame w) as (_ & _ & _ & Hg & Ht & _).
  destruct (shift_buffer_inv w n cs Hn Hall Hinv) as (w' & Hrun & Hinv').
  rewrite Hrun in *. cbn [snd] in *.
  exists w'. split; [reflexivity|]. split; [|exact Ht].
  split; [exact Hinv'|]. split; [exact Hd'|]. congruence.
Qed.

Lemma output_sends_frame (n : Z) (cs : list pyval) (pin : string) (w : world) :
  frames_inv n cs pin (self w) ->
  exists tb,
    output_buffer w = (Ok tt, mkWorld (self w) (trace w ++ frame_events pin tb)) /\
    is_frame_buffer n tb.
Proof.
  intros ((_ & _ & _ & (tb & Htb & Hlen) & _) & Hd & Hpin).
  exists tb. split.
  - rewrite (output_buffer_run w tb Htb), Hpin. reflexivity.
  - split; [assumption|]. unfold durations_ok in Hd. rewrite Htb in Hd. exact Hd.
Qed.

Lemma do_calls_frames (n : Z) (cs : list pyval) (pin : string) (calls : list call) :
  0 < n ->
  forallb is_int_color cs = true ->
  forall w, frames_inv n cs pin (self w) ->
    exists w' bufs,
      do_calls calls w = (Ok tt, w') /\
      frames_inv n cs pin (self w') /\
      trace w' = trace w ++ flat_map (frame_events pin) bufs /\
      List.length bufs = count_outputs calls /\
      Forall (is_frame_buffer n) bufs.
Proof.
  intros Hn Hall. induction calls as [|c calls IH]; intros w Hw; cbn [do_calls].
  - exists w, []. cbn [flat_map]. rewrite app_nil_r.
    split; [reflexivity|]. split; [assumption|]. split; [reflexivity|].
    split; [reflexivity | constructor].
  - unfold bind. destruct c; cbn [do_call].
    + destruct (shift_keeps_frames_inv n cs pin w Hn Hall Hw) as (w1 & -> & Hw1 & Ht).
      destruct (IH w1 Hw1) as (w' & bufs & Hrun & Hw' & Htr & Hlen & Hb).
      exists w', bufs. rewrite Hrun, Htr, Ht.
      split; [reflexivity|]. split; [assumption|]. split; [reflexivity|].
      split; [exact Hlen | exact Hb].
    + destruct (output_sends_frame n cs pin w Hw) as (tb & -> & Hf).
      destruct (IH (mkWorld (self w) (trace w ++ frame_events pin tb)) Hw)
        as (w' & bufs & Hrun & Hw' & Htr & Hlen & Hb).
      exists w', (tb :: bufs). rewrite Hrun, Htr. cbn [trace flat_map].
      rewrite <- app_assoc.
      split; [reflexivity|]. split; [assumption|]. split; [reflexivity|].
      split; [|constructor; assumption].
      unfold count_outputs in *. cbn [filter List.length]. rewrite Hlen. reflexivity.
Qed.

Lemma set_seq_frames_inv (cs : list pyval) (w : world) :
  0 < led_count (self w) ->
  cs <> [] ->
  forallb is_int_color cs = true ->
  exists w', set_seq (PList cs) w = (Ok tt, w') /\
             frames_inv (led_count (self w)) cs (gpio_pin (self w)) (self w') /\
             trace w' = trace w.
Proof.
  intros Hn Hne Hall.
  destruct (set_seq_inv w cs Hn Hne Hall) as (w' & Hrun & Hinv).
  exists w'. split; [assumption|].
  rewrite set_seq_run in Hrun by assumption. injection Hrun as <-.
  split; [|reflexivity]. split; [assumption|]. split; [|reflexivity].
  unfold durations_ok. fields. apply build_durations.
Qed.

(** X10.  On a chain of N > 0 LEDs, after [set_seq] on a non-empty
    sequence of three-integer entries, every sequence of [shift_buffer] and
    [output_buffer] calls returns normally, and what it adds to the trace is,
    for each [output_buffer] call in order, exactly: the peripheral opened
    on channel 3 and the chain's pin with idle level 0, one transmission
    starting HIGH of N * 48 bit-timing constants followed by TRST, and the
    peripheral released.  Nothing is printed and [shift_buffer] sends
    nothing. *)
Theorem frames_sent (cs : list pyval) (calls : list call) (w : world) :
  0 < led_count (self w) ->
  cs <> [] ->
  forallb is_int_color cs = true ->
  exists w' bufs,
    bind (set_seq (PList cs)) (fun _ => do_calls calls) w = (Ok tt, w') /\
    trace w' =
      trace w ++
      flat_map (fun tb => [RMT_new 3 (gpio_pin (self w)) 0;
                           RMT_pulses_send (tb ++ [TRST]) HIGH;
                           RMT_deinit]) bufs /\
    List.length bufs = count_outputs calls /\
    Forall (fun tb => Z.of_nat (List.length tb) = led_count (self w) * 48 /\
                      Forall is_bit_duration tb) bufs.
Proof.
  intros Hn Hne Hall. unfold bind.
  destruct (set_seq_frames_inv cs w Hn Hne Hall) as (w1 & -> & Hinv & Ht).
  destruct (do_calls_frames _ cs _ calls Hn Hall w1 Hinv)
    as (w' & bufs & Hrun & _ & Htr & Hlen & Hb).
  exists w', bufs. rewrite Hrun, Htr, Ht.
  split; [reflexivity|]. split; [reflexivity|]. split; [exact Hlen | exact Hb].
Qed.

Lemma frames_sent_witness :
  let cs := [color 255 0 0; color 0 255 0] in
  let calls := [Output; Shift; Output] in
  let w := chain_init 1 "P22" in
  (0 < led_count (self w) /\ cs <> [] /\ forallb is_int_color cs = true) /\
  exists w' bufs,
    bind (set_seq (PList cs)) (fun _ => do_calls calls) w = (Ok tt, w') /\
    trace w' =
      trace w ++
      flat_map (fun tb => [RMT_new 3 (gpio_pin (self w)) 0;
                           RMT_pulses_send (tb ++ [TRST]) HIGH;
                           RMT_deinit]) bufs /\
    List.length bufs = count_outputs calls /\
    Forall (fun tb => Z.of_nat (List.length tb) = led_count (self w) * 48 /\
                      Forall is_bit_duration tb) bufs.
Proof.
  cbv zeta. split; [repeat split; discriminate || reflexivity|].
  exact (frames_sent [color 255 0 0; color 0 255 0] [Output; Shift; Output]
                     (chain_init 1 "P22") eq_refl ltac:(discriminate) eq_refl).
Defined.

(** ** The self test *)

Lemma fold_left_append_map {A B} (f : A -> B) (xs : list A) :
  forall acc, fold_left (fun acc x => acc ++ [f x]) xs acc = acc ++ map f xs.
Proof.
  induction xs as [|x xs IH]; intros acc; cbn [fold_left map].
  - rewrite app_nil_r. reflexivity.
  - rewrite IH, <- app_assoc. reflexivity.
Qed.

(** The values of [range(start, stop, step)] for a positive step lie in
    [start .. stop - 1]. *)
Lemma range_bounds (start stop step x : Z) :
  0 < step -> In x (range start stop step) -> start <= x < stop.
Proof.
  intros Hs Hx. unfold range in Hx.
  destruct (Z.ltb_spec 0 step) as [_|?]; [|lia].
  apply in_map_iff in Hx. destruct Hx as (k & <- & Hk). apply in_seq in Hk.
  set (count := (stop - start + step - 1) / step) in *.
  assert (Hc : 0 < count) by lia.
  assert (Hm : step * count <= stop - start + step - 1)
    by (apply Z.mul_div_le; assumption).
  assert (Hk' : Z.of_nat k <= count - 1) by lia.
  split; nia.
Qed.

(** X11.  For [step_size >= 1] and [led_brightness <= 256] the colour
    wheel of the self test holds six entries for every value of
    [range(step_size-1, led_brightness, step_size)], and each entry is a
    list of three integers between 0 and [led_brightness - 1], hence a
    well-formed colour. *)
Theorem demo_seq_well_formed (led_brightness step_size : Z) :
  1 <= step_size ->
  led_brightness <= 256 ->
  List.length (demo_seq led_brightness step_size)
  = (6 * List.length (range (step_size - 1) led_brightness step_size))%nat /\
  forallb is_color (demo_seq led_brightness step_size) = true /\
  forall v, In v (demo_seq led_brightness step_size) ->
    exists r g b, v = PList [PInt r; PInt g; PInt b] /\
                  0 <= r <= led_brightness - 1 /\
                  0 <= g <= led_brightness - 1 /\
                  0 <= b <= led_brightness - 1.
Proof.
  intros Hs Hb. unfold demo_seq. cbv zeta.
  rewrite !fold_left_append_map. cbn [app]. rewrite <- !app_assoc.
  set (rg := range (step_size - 1) led_brightness step_size).
  assert (Hrg : forall i, In i rg -> 0 <= i <= led_brightness - 1).
  { intros i Hi. apply range_bounds in Hi; lia. }
  assert (Hin : forall v,
             In v (map (fun i => PList [PInt (led_brightness - 1); PInt i; PInt 0]) rg ++
                   map (fun i => PList [PInt (led_brightness - 1 - i);
                                        PInt (led_brightness - 1); PInt 0]) rg ++
                   map (fun i => PList [PInt 0; PInt (led_brightness - 1); PInt i]) rg ++
                   map (fun i => PList [PInt 0; PInt (led_brightness - 1 - i);
                                        PInt (led_brightness - 1)]) rg ++
                   map (fun i => PList [PInt i; PInt 0; PInt (led_brightness - 1)]) rg ++
                   map (fun i => PList [PInt (led_brightness - 1); PInt 0;
                                        PInt (led_brightness - 1 - i)]) rg) ->
             exists r g b, v = PList [PInt r; PInt g; PInt b] /\
                           0 <= r <= led_brightness - 1 /\
                           0 <= g <= led_brightness - 1 /\
                           0 <= b <= led_brightness - 1).
  { intros v Hv. rewrite !in_app_iff, !in_map_iff in Hv.
    destruct Hv as [H|[H|[H|[H|[H|H]]]]];
      destruct H as (i & <- & Hi); apply Hrg in Hi;
      do 3 eexists; (split; [reflexivity|]); lia. }
  split; [rewrite !length_app, !length_map; lia|].
  split; [|exact Hin].
  apply forallb_forall. intros v Hv.
  destruct (Hin v Hv) as (r & g & b & -> & Hr & Hg & Hbl).
  unfold is_color, is_u8.
  repeat (apply andb_true_intro; split); apply Z.leb_le; lia.
Qed.

Lemma demo_seq_well_formed_witness :
  (1 <= 2 /\ 64 <= 256) /\
  List.length (demo_seq 64 2) = (6 * List.length (range (2 - 1) 64 2))%nat /\
  forallb is_color (demo_seq 64 2) = true.
Proof.
  split; [split; discriminate|].
  destruct (demo_seq_well_formed 64 2 ltac:(discriminate) ltac:(discriminate))
    as (Hlen & Hall & _).
  split; [exact Hlen | exact Hall].
Defined.

Lemma main_loop_frames (n : Z) (cs : list pyval) (pin : string) (rounds : nat) :
  0 < n ->
  forallb is_int_color cs = true ->
  forall s, frames_inv n cs pin (self (device s)) ->
    exists s' bufs,
      main_loop rounds s = (Ok tt, s') /\
      frames_inv n cs pin (self (device s')) /\
      slept_ms s' = slept_ms s + 50 * Z.of_nat rounds /\
      trace (device s') = trace (device s) ++ flat_map (frame_events pin) bufs /\
      List.length bufs = rounds /\
      Forall (is_frame_buffer n) bufs.
Proof.
  intros Hn Hall. induction rounds as [|rounds IH]; intros s Hs; cbn [main_loop].
  - exists s, []. cbn [flat_map]. rewrite app_nil_r.
    split; [reflexivity|]. split; [assumption|]. split; [lia|].
    split; [reflexivity|]. split; [reflexivity | constructor].
  - unfold main_iteration.
    destruct (shift_keeps_frames_inv n cs pin (device s) Hn Hall Hs)
      as (w1 & -> & Hw1 & Ht).
    destruct (output_sends_frame n cs pin w1 Hw1) as (tb & -> & Hf).
    destruct (IH (mkSystem (mkWorld (self w1) (trace w1 ++ frame_events pin tb))
                           (slept_ms s + 50)) Hw1)
      as (s' & bufs & Hrun & Hs' & Hsl & Htr & Hlen & Hb).
    exists s', (tb :: bufs). rewrite Hrun, Hsl, Htr.
    cbn [device slept_ms trace flat_map List.length].
    rewrite Ht, <- app_assoc.
    split; [reflexivity|]. split; [assumption|]. split; [lia|].
    split; [reflexivity|]. split; [congruence | constructor; assumption].
Qed.

(** X12.  The self test never raises: for every n, its set-up and the
    first n rounds of its endless loop run to their end on the chain of 4
    LEDs with the colour wheel of 192 entries.  By then it has asked for
    50 ms of delay n times and has sent n + 1 frames and nothing else to the
    peripheral on pin P22, each frame 192 bit-timing constants followed by
    TRST. *)
Theorem demo_main_runs (n : nat) :
  List.length (demo_seq 64 2) = 192%nat /\
  exists s bufs,
    main n = (Ok tt, s) /\
    slept_ms s = 50 * Z.of_nat n /\
    trace (device s) =
      RMT_new 3 "P22" 0 ::
      flat_map (fun tb => [RMT_new 3 "P22" 0;
                           RMT_pulses_send (tb ++ [TRST]) HIGH;
                           RMT_deinit]) bufs /\
    List.length bufs = S n /\
    Forall (fun tb => List.length tb = 192%nat /\ Forall is_bit_duration tb) bufs.
Proof.
  split; [vm_compute; reflexivity|].
  assert (Hne : demo_seq 64 2 <> []).
  { intros H. apply (f_equal (@List.length pyval)) in H. vm_compute in H.
    discriminate H. }
  assert (Hall : forallb is_int_color (demo_seq 64 2) = true)
    by (vm_compute; reflexivity).
  unfold main. cbv zeta.
  destruct (set_seq_frames_inv (demo_seq 64 2) (chain_init 4 "P22")
              eq_refl Hne Hall) as (w1 & -> & Hinv & Ht).
  cbn [chain_init self led_count gpio_pin trace] in Hinv, Ht.
  destruct (output_sends_frame 4 _ "P22" w1 Hinv) as (tb & -> & Hf).
  destruct (main_loop_frames 4 (demo_seq 64 2) "P22" n eq_refl Hall
              (mkSystem (mkWorld (self w1) (trace w1 ++ frame_events "P22" tb)) 0)
              Hinv)
    as (s & bufs & Hrun & _ & Hsl & Htr & Hlen & Hb).
  exists s, (tb :: bufs). rewrite Hrun, Hsl, Htr.
  cbn [device slept_ms trace flat_map List.length]. rewrite Ht.
  split; [reflexivity|]. split; [lia|]. split.
  { rewrite <- app_assoc. reflexivity. }
  split; [congruence|].
  assert (Hfb : forall b, is_frame_buffer 4 b ->
                  List.length b = 192%nat /\ Forall is_bit_duration b).
  { intros b [Hl Hd]. split; [lia | assumption]. }
  constructor; [apply Hfb, Hf|].
  eapply Forall_impl; [exact Hfb | exact Hb].
Qed.

(** ** When the shift is a true rotation *)

Lemma window_app (cs : list pyval) (a n m : nat) :
  window cs a (n + m) = window cs a n ++ window cs (a + n) m.
Proof. unfold window. rewrite seq_app, flat_map_app. reflexivity. Qed.

Lemma entry_at_add_length (cs : list pyval) (i : Z) :
  entry_at cs (i + Z.of_nat (List.length cs)) = entry_at cs i.
Proof.
  unfold entry_at. destruct cs as [|c cs].
  - rewrite !nth_overflow by (cbn [List.length]; lia). reflexivity.
  - rewrite <- (Z.mul_1_l (Z.of_nat (List.length (c :: cs)))) at 1.
    rewrite Z.mod_add by (cbn [List.length]; lia). reflexivity.
Qed.

Lemma window_period_mul (cs : list pyval) (q a n : nat) :
  window cs (a + q * List.length cs) n = window cs a n.
Proof.
  induction q as [|q IH]; cbn [Nat.mul].
  - rewrite Nat.add_0_r. reflexivity.
  - rewrite <- IH.
    replace (a + (List.length cs + q * List.length cs))%nat
      with (a + q * List.length cs + List.length cs)%nat by lia.
    unfold window. rewrite (seq_add_shift (List.length cs)).
    rewrite flat_map_concat_map, map_map, <- flat_map_concat_map.
    apply flat_map_ext. intros j.
    rewrite Nat2Z.inj_add, entry_at_add_length. reflexivity.
Qed.

(** X14.  When [led_count - 1] is a multiple of the length L of the
    sequence (a single LED, a single colour, N = L + 1, ...), the shift is a
    true rotation from the first call on: after [set_seq] and k calls of
    [shift_buffer], for every k, LED i shows entry [(k + i) mod L] and
    [shift_pos] is [k mod L]; so L calls bring the chain back to the state
    after [set_seq]. *)
Theorem shift_is_rotation_when_aligned (cs : list pyval) (w : world) (k : nat) :
  0 < led_count (self w) ->
  cs <> [] ->
  forallb is_int_color cs = true ->
  (led_count (self w) - 1) mod Z.of_nat (List.length cs) = 0 ->
  bind (set_seq (PList cs)) (fun _ => shifts k) w =
    (Ok tt,
     mkWorld (loaded (self w) cs
                (flat_map (fun i => encode (nth ((k + i) mod List.length cs) cs PNone))
                          (seq 0 (Z.to_nat (led_count (self w)))))
                (Z.of_nat k mod Z.of_nat (List.length cs)))
             (trace w)) /\
  bind (set_seq (PList cs)) (fun _ => shifts (List.length cs)) w
  = set_seq (PList cs) w.
Proof.
  intros Hn Hne Hall Hal.
  assert (HL : 0 < Z.of_nat (List.length cs)) by (destruct cs; [congruence|cbn; lia]).
  assert (Hq : exists q, Z.to_nat (led_count (self w))
                         = (1 + q * List.length cs)%nat).
  { exists (Z.to_nat ((led_count (self w) - 1) / Z.of_nat (List.length cs))).
    apply Z.div_exact in Hal; [|lia].
    assert (0 <= (led_count (self w) - 1) / Z.of_nat (List.length cs))
      by (apply Z.div_pos; lia).
    apply Nat2Z.inj.
    rewrite Nat2Z.inj_add, Nat2Z.inj_mul, !Z2Nat.id by lia. cbn [Z.of_nat]. lia. }
  destruct Hq as [q Hq].
  assert (Hform : forall j,
             skipn (j * 48) (window cs 0 (Z.to_nat (led_count (self w)))
                             ++ window cs 1 j)
             = flat_map (fun i => encode (nth ((j + i) mod List.length cs) cs PNone))
                        (seq 0 (Z.to_nat (led_count (self w))))).
  { intros j.
    rewrite <- (window_period_mul cs q 1 j), <- Hq.
    rewrite <- (window_app cs 0). unfold window.
    rewrite skipn_flat_map_chunks
      by (intros i; apply encode_length, entry_at_int_color; assumption).
    rewrite skipn_seq.
    replace (Z.to_nat (led_count (self w)) + j - j)%nat
      with (Z.to_nat (led_count (self w))) by lia.
    replace (0 + j)%nat with (0 + j)%nat by reflexivity.
    rewrite seq_add_shift.
    rewrite flat_map_concat_map, map_map, <- flat_map_concat_map.
    apply flat_map_ext. intros i. rewrite entry_at_of_nat.
    do 3 f_equal. lia. }
  split.
  - rewrite shifts_closed_form by assumption. rewrite Hform. reflexivity.
  - rewrite shifts_closed_form, set_seq_run by assumption. rewrite Hform.
    rewrite Z.mod_same by lia. do 3 f_equal.
    unfold build. apply flat_map_ext. intros i.
    rewrite Nat.add_comm, <- (Nat.mul_1_l (List.length cs)) at 1.
    rewrite Nat.Div0.mod_add. reflexivity.
Qed.

Lemma shift_is_rotation_when_aligned_witness :
  let cs := [color 255 0 0; color 0 255 0] in
  let w := chain_init 3 "P22" in
  (0 < led_count (self w) /\ cs <> [] /\ forallb is_int_color cs = true /\
   (led_count (self w) - 1) mod Z.of_nat (List.length cs) = 0) /\
  bind (set_seq (PList cs)) (fun _ => shifts (List.length cs)) w
  = set_seq (PList cs) w.
Proof.
  cbv zeta.
  split; [repeat split; discriminate || reflexivity|].
  exact (proj2 (shift_is_rotation_when_aligned
                  [color 255 0 0; color 0 255 0] (chain_init 3 "P22") 0
                  eq_refl ltac:(discriminate) eq_refl eq_refl)).
Defined.
